(** * Workplace automation core: chunking, embedding cache, search, QA and
      summarization chains

    A shallow embedding of the Python services under [app/core],
    [app/services] and [app/chains], and the properties of their
    documented behaviour.

    Conventions of the embedding.
    - A Python method that may raise is a computation in the monad [M]:
      it takes the state it can mutate and returns an outcome ([Ok v] or
      [Raise e]) together with the state it leaves behind.  Mutations made
      before an exception is raised persist, as in Python.
    - [try: ... except Exception as e: logger.error(...); raise] re-raises
      the exception it caught; logging is not observable, so such a wrapper
      is the identity on computations and is left out.
    - Third-party collaborators (the embedding client, the vector index,
      the LLM chains, langchain's text splitter) are variables of the
      section that models the class calling them.
    - Texts are [string]s; [len] is [String.length]. *)

From Stdlib Require Import ZArith String Ascii List Lia.
From stdpp Require Import gmap strings list fin_maps pretty.

Open Scope string_scope.
Open Scope Z_scope.
Open Scope list_scope.

(** ** Python runtime fragments *)

Module Py.

(** An exception value: its class name and [str(e)]. *)
Record exn := Exn { exn_class : string; exn_msg : string }.

Inductive result (A : Type) : Type :=
| Ok (a : A)
| Raise (e : exn).
Arguments Ok {A} a.
Arguments Raise {A} e.

Definition is_ok {A} (r : result A) : bool :=
  match r with Ok _ => true | Raise _ => false end.

(** State-and-exception monad: the state survives a raise. *)
Definition M (S A : Type) : Type := S -> result A * S.

Definition ret {S A} (a : A) : M S A := fun s => (Ok a, s).

Definition raise {S A} (e : exn) : M S A := fun s => (Raise e, s).

Definition bind {S A B} (m : M S A) (k : A -> M S B) : M S B :=
  fun s => match m s with
           | (Ok a, s') => k a s'
           | (Raise e, s') => (Raise e, s')
           end.

Definition modify {S} (f : S -> S) : M S unit := fun s => (Ok tt, f s).

(** [try: m except Exception as e: h e] *)
Definition try_except {S A} (m : M S A) (h : exn -> M S A) : M S A :=
  fun s => match m s with
           | (Ok a, s') => (Ok a, s')
           | (Raise e, s') => h e s'
           end.

(** Lifting a pure outcome. *)
Definition lift {S A} (r : result A) : M S A := fun s => (r, s).

Definition IndexError : exn := Exn "IndexError" "list index out of range".
Definition KeyError (k : string) : exn := Exn "KeyError" k.
Definition ValueError (msg : string) : exn := Exn "ValueError" msg.

(** [l[i]] for an index that is not negative. *)
Definition getitem {A} (l : list A) (i : nat) : result A :=
  match l !! i with
  | Some a => Ok a
  | None => Raise IndexError
  end.

(** [l[i] = x] for an index that is not negative. *)
Definition setitem {A} (l : list A) (i : nat) (x : A) : result (list A) :=
  if decide (i < length l)%nat then Ok (<[i := x]> l) else Raise IndexError.

(** [l[:k]]: a negative [k] counts from the end. *)
Definition slice_to {A} (k : Z) (l : list A) : list A :=
  if 0 <=? k then take (Z.to_nat k) l
  else take (Z.to_nat (Z.of_nat (length l) + k)) l.

(** [l[-k:]] for a positive literal [k]. *)
Definition last_n {A} (k : nat) (l : list A) : list A :=
  drop (length l - k) l.

(** [l[i:i+n]] for [0 <= i] and [0 <= n]. *)
Definition slice {A} (i n : nat) (l : list A) : list A :=
  take n (drop i l).

(** [range(0, stop, step)] for a positive [step], as the list of its
    values; [fuel] bounds the number of values. *)
Fixpoint range_from (fuel : nat) (i stop step : nat) : list nat :=
  match fuel with
  | O => []
  | S fuel' =>
      if decide (i < stop)%nat then i :: range_from fuel' (i + step) stop step
      else []
  end.

(** [range(0, stop, step)]: a zero step raises, a negative one yields
    nothing when [0 <= stop]. *)
Definition range_step (stop : nat) (step : Z) : result (list nat) :=
  if step =? 0 then Raise (ValueError "range() arg 3 must not be zero")
  else if step <? 0 then Ok []
  else Ok (range_from stop 0 stop (Z.to_nat step)).

(** [s[:n]] on a string. *)
Fixpoint str_take (n : nat) (s : string) : string :=
  match n, s with
  | O, _ => EmptyString
  | S n', EmptyString => EmptyString
  | S n', String c s' => String c (str_take n' s')
  end.

(** The characters [str.isspace] accepts among ASCII. *)
Definition is_space (c : ascii) : bool :=
  let n := nat_of_ascii c in
  ((9 <=? n) && (n <=? 13) || (28 <=? n) && (n <=? 32))%nat.

Fixpoint lstrip (s : string) : string :=
  match s with
  | String c s' => if is_space c then lstrip s' else s
  | EmptyString => EmptyString
  end.

Definition strip (s : string) : string :=
  String.rev (lstrip (String.rev (lstrip s))).

(** [sep.join(parts)] *)
Fixpoint join (sep : string) (parts : list string) : string :=
  match parts with
  | [] => ""
  | [p] => p
  | p :: ps => p +:+ sep +:+ join sep ps
  end.

(** Values that appear in the metadata and result dictionaries. *)
Inductive value :=
| VStr (s : string)
| VInt (n : Z)
| VBool (b : bool)
| VNone.

End Py.

Import Py.

Declare Scope py_scope.
Delimit Scope py_scope with py.
Notation "x <~ m ;; k" := (bind m (fun x => k))
  (at level 100, m at next level, right associativity) : py_scope.
Notation "m ;;; k" := (bind m (fun _ => k))
  (at level 100, right associativity) : py_scope.
Open Scope py_scope.

(** A dictionary with string keys. *)
Abbreviation dict := (gmap string value).

(** [d.get(k, default)] *)
Definition dict_get {V} (d : gmap string V) (k : string) (default : V) : V :=
  match d !! k with
  | Some v => v
  | None => default
  end.

(** A langchain [Document]. *)
Record Document := mkDocument {
  page_content : string;
  metadata : dict;
}.

(** ** [app/core/embeddings_service.py] *)

Module Embeddings.

(** What [embed_documents] prepares for the index. *)
Record Vector (Vec : Type) := mkVector {
  vec_id : value;
  vec_values : option Vec;
  vec_metadata : dict;
}.
Arguments mkVector {Vec} _ _ _.
Arguments vec_id {Vec} _.
Arguments vec_values {Vec} _.
Arguments vec_metadata {Vec} _.

(** The fields of an [EmbeddingsService] instance. *)
Record Service (Vec : Type) := mkService {
  batch_size : Z;
  use_cache : bool;
  cache : gmap string Vec;
}.
Arguments mkService {Vec} _ _ _.
Arguments batch_size {Vec} _.
Arguments use_cache {Vec} _.
Arguments cache {Vec} _.

Section EmbeddingsService.

(** An embedding, [List[float]]; the service never looks inside. *)
Context {Vec : Type}.
(** The state of the embedding client ([self.embeddings]). *)
Context {B : Type}.

(** [hashlib.md5(text.encode()).hexdigest()] *)
Variable _get_cache_key : string -> string.
(** [self.embeddings.embed_query] and [self.embeddings.embed_documents] *)
Variable embed_query : string -> M B Vec.
Variable client_embed_documents : list string -> M B (list Vec).

Definition St : Type := Service Vec * B.

Definition set_cache (f : gmap string Vec -> gmap string Vec)
    (svc : Service Vec) : Service Vec :=
  mkService (batch_size svc) (use_cache svc) (f (cache svc)).

(** Running a client call on the client's part of the state. *)
Definition client {A} (m : M B A) : M St A :=
  fun '(svc, b) => let '(r, b') := m b in (r, (svc, b')).

Definition self : M St (Service Vec) := fun st => (Ok (fst st), st).

(** [self.cache[key] = embedding] *)
Definition cache_store (key : string) (embedding : Vec) : M St unit :=
  modify (fun '(svc, b) => (set_cache (insert key embedding) svc, b)).

Definition embed_text (text : string) : M St Vec :=
  svc <~ self ;;
  match (if use_cache svc then cache svc !! _get_cache_key text else None) with
  | Some cached => ret cached
  | None =>
      embedding <~ client (embed_query text) ;;
      (if use_cache svc
       then cache_store (_get_cache_key text) embedding
       else ret tt) ;;;
      ret embedding
  end.

(** The first loop of [embed_texts]: one slot per text, [None] for a
    miss, together with the misses and their positions; [i] is the
    position of the head of [texts]. *)
Fixpoint check_cache (c : gmap string Vec) (i : nat) (texts : list string)
    : list (option Vec) * list string * list nat :=
  match texts with
  | [] => ([], [], [])
  | text :: rest =>
      let '(embeddings, texts_to_embed, text_indices) :=
        check_cache c (S i) rest in
      match c !! _get_cache_key text with
      | Some cached => (Some cached :: embeddings, texts_to_embed, text_indices)
      | None => (None :: embeddings, text :: texts_to_embed, i :: text_indices)
      end
  end.

(** The inner loop: [for j, embedding in enumerate(batch_embeddings)],
    from position [j] on. *)
Fixpoint store_batch (texts : list string) (text_indices : list nat)
    (i j : nat) (batch_embeddings : list Vec)
    (embeddings : list (option Vec)) : M St (list (option Vec)) :=
  match batch_embeddings with
  | [] => ret embeddings
  | embedding :: rest =>
      idx <~ lift (getitem text_indices (i + j)) ;;
      embeddings' <~ lift (setitem embeddings idx (Some embedding)) ;;
      svc <~ self ;;
      (if use_cache svc
       then text <~ lift (getitem texts idx) ;;
            cache_store (_get_cache_key text) embedding
       else ret tt) ;;;
      store_batch texts text_indices i (S j) rest embeddings'
  end.

(** The outer loop over the offsets [range(0, len(texts_to_embed),
    self.batch_size)]. *)
Fixpoint embed_batches (n : nat) (texts texts_to_embed : list string)
    (text_indices : list nat) (offsets : list nat)
    (embeddings : list (option Vec)) : M St (list (option Vec)) :=
  match offsets with
  | [] => ret embeddings
  | i :: rest =>
      let batch := slice i n texts_to_embed in
      batch_embeddings <~ client (client_embed_documents batch) ;;
      embeddings' <~ store_batch texts text_indices i 0 batch_embeddings embeddings ;;
      embed_batches n texts texts_to_embed text_indices rest embeddings'
  end.

Definition embed_texts (texts : list string) : M St (list (option Vec)) :=
  svc <~ self ;;
  let '(embeddings, texts_to_embed, text_indices) :=
    if use_cache svc then check_cache (cache svc) 0 texts
    else (replicate (length texts) None, texts, seq 0 (length texts)) in
  match texts_to_embed with
  | [] => ret embeddings
  | _ =>
      offsets <~ lift (range_step (length texts_to_embed) (batch_size svc)) ;;
      embed_batches (Z.to_nat (batch_size svc)) texts texts_to_embed
        text_indices offsets embeddings
  end.

(** The body of the loop that prepares one vector. *)
Definition prepare_vector (i : nat) (doc : Document)
    (embedding : option Vec) : Vector Vec :=
  mkVector
    (dict_get (metadata doc) "id" (VStr ("doc_" +:+ pretty i)))
    embedding
    (<["text" := VStr (str_take 1000 (page_content doc))]> (metadata doc)).

Definition embed_documents (documents : list Document)
    : M St (list (Vector Vec)) :=
  let texts := map page_content documents in
  embeddings <~ embed_texts texts ;;
  ret (imap (fun i '(doc, embedding) => prepare_vector i doc embedding)
         (zip documents embeddings)).

End EmbeddingsService.

(** The vector [embed_text] answers with for [text] when the client
    maps every text [t] to [f t]: the cached one on a hit. *)
Definition cached_or_fresh {Vec : Type} (key : string -> string)
    (f : string -> Vec) (svc : Service Vec) (text : string) : Vec :=
  match (if use_cache svc then cache svc !! key text else None) with
  | Some cached => cached
  | None => f text
  end.

(** The assignments [embeddings[idx] = embedding] for a list of
    (idx, embedding) pairs, in order. *)
Definition fill {Vec : Type} (embeddings : list (option Vec))
    (writes : list (nat * Vec)) : list (option Vec) :=
  foldl (fun acc w => <[fst w := Some (snd w)]> acc) embeddings writes.

End Embeddings.

(** ** [app/core/text_splitter.py] *)

Module TextSplitter.

(** A line feed. *)
Definition nl : string := String "010"%char EmptyString.

(** The separators [DocumentTextSplitter.__init__] passes when the
    caller gives none. *)
Definition default_separators : list string :=
  [nl +:+ nl; nl; ". "; ", "; " "; ""].

(** The separators langchain uses when the caller gives none. *)
Definition langchain_separators : list string :=
  [nl +:+ nl; nl; " "; ""].

Record DocumentTextSplitter := mkSplitter {
  chunk_size : Z;
  chunk_overlap : Z;
  separators : list string;
}.

(** [create_text_splitter(chunk_size, chunk_overlap)], not adaptive. *)
Definition create_text_splitter (size overlap : Z) : DocumentTextSplitter :=
  mkSplitter size overlap default_separators.

Section DocumentTextSplitter.

(** [RecursiveCharacterTextSplitter(chunk_size, chunk_overlap,
    length_function=len, separators).split_text], from langchain. *)
Variable recursive_split_text :
  Z -> Z -> list string -> string -> result (list string).

(** The method hands the text to langchain's splitter and returns its
    chunks, or re-raises what it raised. *)
Definition split_text (self : DocumentTextSplitter) (text : string)
    : result (list string) :=
  recursive_split_text (chunk_size self) (chunk_overlap self)
    (separators self) text.

End DocumentTextSplitter.

Definition estimate_tokens (text : string) : Z :=
  Z.of_nat (String.length text) / 4.

Definition should_split (self : DocumentTextSplitter) (text : string) : bool :=
  chunk_size self <? Z.of_nat (String.length text).

End TextSplitter.

(** ** [app/chains/qa_chain.py] *)

Module QA.

Inductive prompt := qa_prompt | qa_with_sources_prompt | conversational_qa_prompt.

(** One entry of [self.chat_history]: the dictionary
    [{"question": q, "answer": a}]. *)
Record turn := mkTurn { question : string; answer : string }.

(** The mutable field of a [QAChain]. *)
Record QAChain := mkQAChain { chat_history : list turn }.

Section QAChain.

(** The state of the LLM backend. *)
Context {L : Type}.
(** [LLMChain(llm=self.llm, prompt=prompt).invoke(inputs)] *)
Variable chain_invoke : prompt -> gmap string string -> M L (gmap string string).

Definition St : Type := QAChain * L.

Definition llm {A} (m : M L A) : M St A :=
  fun '(qa, l) => let '(r, l') := m l in (r, (qa, l')).

Definition self : M St QAChain := fun st => (Ok (fst st), st).

Definition answer_question (q context : string) (include_sources : bool)
    : M St dict :=
  let prompt := if include_sources then qa_with_sources_prompt else qa_prompt in
  result <~ llm (chain_invoke prompt
                   (<["context" := context]> {["question" := q]})) ;;
  let answer := strip (dict_get result "text" "") in
  ret (<["answer" := VStr answer]>
       (<["question" := VStr q]>
        {["sources_included" := VBool include_sources]})).

(** [f"Q: {item['question']}\nA: {item['answer']}"] *)
Definition render_turn (item : turn) : string :=
  "Q: " +:+ question item +:+ TextSplitter.nl +:+ "A: " +:+ answer item.

(** The transcript put in the prompt: the last five exchanges. *)
Definition format_history (history : list turn) : string :=
  let chat_history_str :=
    join TextSplitter.nl (map render_turn (last_n 5 history)) in
  if decide (chat_history_str = "") then "No previous conversation."
  else chat_history_str.

(** [self.chat_history.append({"question": q, "answer": a})] *)
Definition history_append (q a : string) : M St unit :=
  modify (fun '(qa, l) => (mkQAChain (chat_history qa ++ [mkTurn q a]), l)).

Definition answer_with_conversation_history (q context : string)
    (update_history : bool) : M St dict :=
  qa <~ self ;;
  let chat_history_str := format_history (chat_history qa) in
  result <~ llm (chain_invoke conversational_qa_prompt
                   (<["chat_history" := chat_history_str]>
                    (<["context" := context]> {["question" := q]}))) ;;
  let answer := strip (dict_get result "text" "") in
  (if update_history then history_append q answer else ret tt) ;;;
  qa' <~ self ;;
  ret (<["answer" := VStr answer]>
       (<["question" := VStr q]>
        {["conversation_turns" := VInt (Z.of_nat (length (chat_history qa')))]})).

Definition clear_history : M St unit :=
  modify (fun '(_, l) => (mkQAChain [], l)).

Definition get_history : M St (list turn) :=
  qa <~ self ;; ret (chat_history qa).

(** A session: the questions asked one after the other, each with its
    context, history being updated; the answers are returned in order
    and the session stops at the first call that raises. *)
Fixpoint converse (asks : list (string * string)) : M St (list dict) :=
  match asks with
  | [] => ret []
  | (q, context) :: rest =>
      r <~ answer_with_conversation_history q context true ;;
      rs <~ converse rest ;;
      ret (r :: rs)
  end.

End QAChain.

End QA.

(** ** [app/services/search_service.py] and [app/models/search_models.py] *)

Module Search.

(** One match returned by the vector index: its id, its score and,
    when requested, its metadata. *)
Record Match (Score : Type) := mkMatch {
  match_id : string;
  match_score : Score;
  match_metadata : option dict;
}.
Arguments mkMatch {Score} _ _ _.
Arguments match_id {Score} _.
Arguments match_score {Score} _.
Arguments match_metadata {Score} _.

(** One entry of the dictionary [fetch] returns. *)
Record Fetched (Vec : Type) := mkFetched { fetched_values : Vec }.
Arguments mkFetched {Vec} _.
Arguments fetched_values {Vec} _.

Record SearchResult (Score : Type) := mkSearchResult {
  document_id : string;
  score : Score;
  text : string;
  result_metadata : dict;
}.
Arguments mkSearchResult {Score} _ _ _ _.
Arguments document_id {Score} _.
Arguments score {Score} _.
Arguments text {Score} _.
Arguments result_metadata {Score} _.

(** The dictionary [search] returns, without its wall-clock
    [search_time_ms]. *)
Record SearchResponse (Score : Type) := mkSearchResponse {
  response_query : string;
  results : list (SearchResult Score);
  total_results : nat;
}.
Arguments mkSearchResponse {Score} _ _ _.
Arguments response_query {Score} _.
Arguments results {Score} _.
Arguments total_results {Score} _.

(** [{**search_results, "answer": answer}] *)
Record AnswerResponse (Score : Type) := mkAnswerResponse {
  search_results : SearchResponse Score;
  response_answer : value;
}.
Arguments mkAnswerResponse {Score} _ _.
Arguments search_results {Score} _.
Arguments response_answer {Score} _.

Definition ValidationError : exn :=
  Exn "ValidationError" "1 validation error for SearchResult".

(** [SearchResult(document_id=..., score=..., text=..., metadata=...)]:
    the model declares [text: str] and refuses any other value. *)
Definition new_SearchResult {Score} (id : string) (sc : Score)
    (txt : value) (md : dict) : result (SearchResult Score) :=
  match txt with
  | VStr s => Ok (mkSearchResult id sc s md)
  | _ => Raise ValidationError
  end.

(** [match.get('metadata', {})] *)
Definition metadata_of {Score} (m : Match Score) : dict :=
  match match_metadata m with
  | Some md => md
  | None => ∅
  end.

(** The result built from one match. *)
Definition format_match {Score} (m : Match Score) : result (SearchResult Score) :=
  new_SearchResult (match_id m) (match_score m)
    (dict_get (metadata_of m) "text" (VStr "")) (metadata_of m).

(** [for match in matches: results.append(SearchResult(...))] *)
Fixpoint format_matches {Score} (matches : list (Match Score))
    : result (list (SearchResult Score)) :=
  match matches with
  | [] => Ok []
  | m :: rest =>
      match format_match m with
      | Raise e => Raise e
      | Ok r =>
          match format_matches rest with
          | Raise e => Raise e
          | Ok rs => Ok (r :: rs)
          end
      end
  end.

(** The loop of [find_similar_documents]: matches carrying the source
    id are skipped, the others are formatted and appended. *)
Fixpoint format_others {Score} (source : string) (matches : list (Match Score))
    : result (list (SearchResult Score)) :=
  match matches with
  | [] => Ok []
  | m :: rest =>
      if decide (match_id m <> source) then
        match format_match m with
        | Raise e => Raise e
        | Ok r =>
            match format_others source rest with
            | Raise e => Raise e
            | Ok rs => Ok (r :: rs)
            end
        end
      else format_others source rest
  end.

(** [f"[Source {i+1}] {result.text}"] for each result, joined by a
    blank line. *)
Definition build_context {Score} (rs : list (SearchResult Score)) : string :=
  join (TextSplitter.nl +:+ TextSplitter.nl)
    (imap (fun i r => "[Source " +:+ pretty (i + 1)%nat +:+ "] " +:+ text r) rs).

Section SearchService.

Context {Vec Score : Type}.
(** Everything the collaborating services can mutate. *)
Context {W : Type}.

(** [self.embeddings_service.embed_text] *)
Variable embed_text : string -> M W Vec.
(** [self.pinecone_service.query(query_vector, top_k, namespace,
    filter, include_metadata)] *)
Variable pinecone_query :
  Vec -> Z -> string -> option dict -> bool -> M W (list (Match Score)).
(** [self.pinecone_service.fetch(ids)] *)
Variable pinecone_fetch : list string -> M W (gmap string (Fetched Vec)).
(** [self.qa_chain.answer_question(question, context, include_sources)] *)
Variable answer_question : string -> string -> bool -> M W dict.

Definition search (query : string) (top_k : Z) (namespace : string)
    (filter : option dict) : M W (SearchResponse Score) :=
  query_embedding <~ embed_text query ;;
  matches <~ pinecone_query query_embedding top_k namespace filter true ;;
  rs <~ lift (format_matches matches) ;;
  ret (mkSearchResponse query rs (length rs)).

Definition search_with_answer (query : string) (top_k : Z)
    : M W (AnswerResponse Score) :=
  found <~ search query top_k "" None ;;
  let context := build_context (results found) in
  answer_result <~ answer_question query context true ;;
  match answer_result !! "answer" with
  | Some a => ret (mkAnswerResponse found a)
  | None => raise (KeyError "answer")
  end.

Definition find_similar_documents (source : string) (top_k : Z)
    : M W (list (SearchResult Score)) :=
  vectors <~ pinecone_fetch [source] ;;
  if decide (vectors = ∅) then
    raise (ValueError ("Document " +:+ source +:+ " not found"))
  else
    match vectors !! source with
    | None => raise (KeyError source)
    | Some fetched =>
        let doc_vector := fetched_values fetched in
        matches <~ pinecone_query doc_vector (top_k + 1) "" None true ;;
        rs <~ lift (format_others source matches) ;;
        ret (slice_to top_k rs)
    end.

End SearchService.

End Search.

(** ** [app/chains/summarization_chain.py] and
       [app/prompts/summary_prompts.py] *)

Module Summarization.

Inductive prompt :=
| brief_summary_prompt
| standard_summary_prompt
| detailed_summary_prompt
| technical_summary_prompt
| few_shot_summary_prompt
| map_summary_prompt
| reduce_summary_prompt.

Definition get_summary_prompt (length document_type : string) : prompt :=
  if decide (document_type = "technical") then technical_summary_prompt
  else if decide (document_type = "few-shot") then few_shot_summary_prompt
  else if decide (length = "brief") then brief_summary_prompt
  else if decide (length = "detailed") then detailed_summary_prompt
  else standard_summary_prompt.

(** [self.max_doc_length], in tokens. *)
Definition max_doc_length : Z := 4000.

Definition _estimate_tokens (text : string) : Z :=
  Z.of_nat (String.length text) / 4.

(** The entry [batch_summarize] records for a text whose summary
    raised [e]. *)
Definition error_entry (e : exn) (length document_type : string) : dict :=
  <["summary" := VStr ""]>
  (<["error" := VStr (exn_msg e)]>
   (<["length" := VStr length]>
    {["document_type" := VStr document_type]})).

(** What the batch records for one outcome of [summarize]. *)
Definition entry_of (r : result dict) (length document_type : string) : dict :=
  match r with
  | Ok summary => summary
  | Raise e => error_entry e length document_type
  end.

Section SummarizationChain.

(** The state of the LLM backend. *)
Context {L : Type}.

(** [LLMChain(llm=self.llm, prompt=prompt).invoke({"text": text})] *)
Variable chain_invoke : prompt -> string -> M L (gmap string string).
(** [RecursiveCharacterTextSplitter(chunk_size, chunk_overlap)
    .split_text], from langchain. *)
Variable recursive_split_text :
  Z -> Z -> list string -> string -> result (list string).
(** [MapReduceDocumentsChain(...).invoke({"input_documents": docs})],
    built from the map and reduce prompts. *)
Variable map_reduce_invoke :
  prompt -> prompt -> list Document -> M L (gmap string string).

Definition _map_reduce_summarize (text : string) : M L dict :=
  chunks <~ lift (recursive_split_text 3000 200
                    TextSplitter.langchain_separators text) ;;
  let docs := map (fun chunk => mkDocument chunk ∅) chunks in
  result <~ map_reduce_invoke map_summary_prompt reduce_summary_prompt docs ;;
  let summary := strip (dict_get result "output_text" "") in
  ret (<["summary" := VStr summary]>
       (<["length" := VStr "standard"]>
        (<["document_type" := VStr "general"]>
         (<["method" := VStr "map_reduce"]>
          {["num_chunks" := VInt (Z.of_nat (length docs))]})))).

Definition summarize (text length document_type : string) : M L dict :=
  let prompt := get_summary_prompt length document_type in
  if max_doc_length <? _estimate_tokens text then
    _map_reduce_summarize text
  else
    result <~ chain_invoke prompt text ;;
    let summary := strip (dict_get result "text" "") in
    ret (<["summary" := VStr summary]>
         (<["length" := VStr length]>
          (<["document_type" := VStr document_type]>
           {["method" := VStr "single_pass"]}))).

Fixpoint batch_summarize (texts : list string) (length document_type : string)
    : M L (list dict) :=
  match texts with
  | [] => ret []
  | text :: rest =>
      entry <~ try_except (summarize text length document_type)
                 (fun e => ret (error_entry e length document_type)) ;;
      summaries <~ batch_summarize rest length document_type ;;
      ret (entry :: summaries)
  end.

(** The backend state in which [batch_summarize] summarizes the
    [i]-th text: the one the first [i] texts leave behind. *)
Definition state_before (texts : list string) (length document_type : string)
    (l : L) (i : nat) : L :=
  snd (batch_summarize (take i texts) length document_type l).

End SummarizationChain.

End Summarization.

(** ** Scripted collaborators

    Small concrete collaborators on which the services can be run. *)

Module Scripted.

(** [n] copies of the character [c]. *)
Fixpoint repeat_char (n : nat) (c : ascii) : string :=
  match n with
  | O => EmptyString
  | S n' => String c (repeat_char n' c)
  end.

(** A text of 16004 characters, the shortest whose token estimate
    exceeds 4000. *)
Definition long_text : string := repeat_char (Z.to_nat 16004) "a".

(** An LLM chain that always answers [reply] under [key]. *)
Definition constant_chain {P I : Type} (key reply : string)
    : P -> I -> M unit (gmap string string) :=
  fun _ _ => ret {[key := reply]}.

(** A map-reduce chain that always answers [reply]. *)
Definition constant_map_reduce {P : Type} (reply : string)
    : P -> P -> list Document -> M unit (gmap string string) :=
  fun _ _ _ => ret {["output_text" := reply]}.

(** A splitter that cuts nothing. *)
Definition whole_text_splitter
    : Z -> Z -> list string -> string -> result (list string) :=
  fun _ _ _ text => Ok [text].

(** A fresh [QAChain] on the LLM that always answers [reply]. *)
Definition fresh_chain : QA.QAChain * unit := (QA.mkQAChain [], tt).

(** [n] questions asked in one session. *)
Definition asks (n : nat) : list (string * string) :=
  replicate n ("What changed?", "The budget grew.").

(** An embedding service that maps every text to the vector [v]. *)
Definition constant_embedder {Vec : Type} (v : Vec) : string -> M unit Vec :=
  fun _ => ret v.

(** A vector index that answers every query with [matches], cut to the
    requested number of results. *)
Definition scripted_query {Vec : Type} (matches : list (Search.Match nat))
    : Vec -> Z -> string -> option dict -> bool -> M unit (list (Search.Match nat)) :=
  fun _ top_k _ _ _ => ret (take (Z.to_nat top_k) matches).

(** A vector index that holds exactly [stored]. *)
Definition scripted_fetch {Vec : Type} (stored : gmap string (Search.Fetched Vec))
    : list string -> M unit (gmap string (Search.Fetched Vec)) :=
  fun ids => ret (filter (fun kv => fst kv ∈ ids) stored).

(** A QA chain whose generation step raises [e]. *)
Definition failing_answer (e : exn) : string -> string -> bool -> M unit dict :=
  fun _ _ _ => raise e.

Definition generation_error : exn :=
  Exn "APIError" "generation backend unavailable".

(** Three indexed passages. *)
Definition passages : list (Search.Match nat) :=
  [ Search.mkMatch "doc-1" 99%nat (Some {["text" := VStr "Q4 target: 2.5M"]});
    Search.mkMatch "doc-2" 80%nat (Some {["text" := VStr "Q3 target: 2.1M"]});
    Search.mkMatch "doc-3" 71%nat None ].

Definition stored_vectors : gmap string (Search.Fetched nat) :=
  {[ "doc-1" := Search.mkFetched 11%nat ]}.

(** An embedding client driven by a script: each call consumes the next
    scripted outcome; a call made after the script ran out cannot
    connect. *)
Definition connection_error : exn :=
  Exn "APIConnectionError" "Connection error.".

Definition rate_limit_error : exn :=
  Exn "RateLimitError" "Rate limit reached for requests".

Definition scripted_embed_query : string -> M (list (result nat)) nat :=
  fun _ script =>
    match script with
    | [] => (Raise connection_error, [])
    | outcome :: later => (outcome, later)
    end.

(** A deterministic embedding client: the vector of a text is its
    length. *)
Definition length_embed_query : string -> M unit nat :=
  fun text => ret (String.length text).

Definition length_embed_documents : list string -> M unit (list nat) :=
  fun texts => ret (map String.length texts).

(** A stand-in for the MD5 digest: the text itself. *)
Definition identity_key : string -> string := fun text => text.

(** A service with an empty cache and the default batch size. *)
Definition empty_service : Embeddings.Service nat :=
  Embeddings.mkService 100 true ∅.

(** A service that holds a vector for "budget" and sends two texts per
    batch. *)
Definition warm_service : Embeddings.Service nat :=
  Embeddings.mkService 2 true {["budget" := 600%nat]}.

(** Two chunks handed to [embed_documents]: one of 1001 characters
    that carries an id, and a short one that does not. *)
Definition chunks : list Document :=
  [ mkDocument (repeat_char 1001 "x")
      {["id" := VStr "report-0"; "page" := VInt 3]};
    mkDocument "Short note." ∅ ].

(** Texts that mix a cached one with misses, one of them repeated. *)
Definition mixed_texts : list string :=
  ["budget"; "plan"; "q4 targets"; "plan"; "summary"].

End Scripted.

(** ** [app/core/text_splitter.py]: documents *)

Module Chunking.

(** [doc.metadata['chunk_id'] = i] and
    [doc.metadata['chunk_size'] = len(doc.page_content)]; each chunk
    langchain returns owns its metadata dictionary. *)
Definition number_chunk (i : nat) (doc : Document) : Document :=
  mkDocument (page_content doc)
    (<["chunk_size" := VInt (Z.of_nat (String.length (page_content doc)))]>
     (<["chunk_id" := VInt (Z.of_nat i)]> (metadata doc))).

(** [chunk.metadata['content_type'] = content_type] *)
Definition tag_content_type (content_type : string) (chunk : Document) : Document :=
  mkDocument (page_content chunk)
    (<["content_type" := VStr content_type]> (metadata chunk)).

(** [p] is a prefix of [s]. *)
Fixpoint starts_with (p s : string) : bool :=
  match p, s with
  | EmptyString, _ => true
  | String a p', String b s' => if decide (a = b) then starts_with p' s' else false
  | String _ _, EmptyString => false
  end.

(** [p in s] for a pattern [p] that is not empty. *)
Fixpoint contains (p s : string) : bool :=
  match s with
  | EmptyString => false
  | String _ s' => starts_with p s || contains p s'
  end.

(** [s.count(p)] for a pattern [p] that is not empty: occurrences are
    counted from the left and do not overlap; [skip] characters of a
    counted occurrence remain to be passed over. *)
Fixpoint count_skipping (p : string) (skip : nat) (s : string) : nat :=
  match s with
  | EmptyString => O
  | String _ s' =>
      match skip with
      | S k => count_skipping p k s'
      | O =>
          if starts_with p s
          then S (count_skipping p (String.length p - 1) s')
          else count_skipping p 0 s'
      end
  end.

Definition count (p s : string) : nat := count_skipping p 0 s.

(** A line feed followed by four spaces. *)
Definition indented_line : string := TextSplitter.nl +:+ "    ".

(** [AdaptiveTextSplitter._detect_content_type] *)
Definition _detect_content_type (text : string) : string :=
  if contains "```" text || (5 <? count indented_line text)%nat then "code"
  else if contains "|" text && (10 <? count "|" text)%nat then "table"
  else "general".

(** The sizes and separators of an [AdaptiveTextSplitter]. *)
Record AdaptiveTextSplitter := mkAdaptive {
  default_chunk_size : Z;
  code_chunk_size : Z;
  table_chunk_size : Z;
  adaptive_chunk_overlap : Z;
}.

Definition code_separators : list string :=
  [TextSplitter.nl +:+ TextSplitter.nl; TextSplitter.nl; " "; ""].

Definition table_separators : list string :=
  [TextSplitter.nl +:+ TextSplitter.nl; TextSplitter.nl].

Section Splitters.

(** [RecursiveCharacterTextSplitter(chunk_size, chunk_overlap,
    separators).split_documents], from langchain. *)
Variable recursive_split_documents :
  Z -> Z -> list string -> list Document -> result (list Document).

(** [DocumentTextSplitter.split_documents] *)
Definition split_documents (self : TextSplitter.DocumentTextSplitter)
    (documents : list Document) : result (list Document) :=
  match recursive_split_documents (TextSplitter.chunk_size self)
          (TextSplitter.chunk_overlap self) (TextSplitter.separators self)
          documents with
  | Ok chunked_docs => Ok (imap number_chunk chunked_docs)
  | Raise e => Raise e
  end.

(** [DocumentTextSplitter.split_document_with_metadata] *)
Definition split_document_with_metadata (self : TextSplitter.DocumentTextSplitter)
    (text : string) (md : dict) : result (list Document) :=
  split_documents self [mkDocument text md].

(** The chunks of one document in [AdaptiveTextSplitter.split_documents],
    before they are tagged. *)
Definition adaptive_chunks (self : AdaptiveTextSplitter) (content_type : string)
    (doc : Document) : result (list Document) :=
  if decide (content_type = "code") then
    recursive_split_documents (code_chunk_size self)
      (adaptive_chunk_overlap self) code_separators [doc]
  else if decide (content_type = "table") then
    recursive_split_documents (table_chunk_size self)
      (adaptive_chunk_overlap self) table_separators [doc]
  else
    recursive_split_documents (default_chunk_size self)
      (adaptive_chunk_overlap self) TextSplitter.default_separators [doc].

(** [AdaptiveTextSplitter.split_documents] *)
Fixpoint adaptive_split_documents (self : AdaptiveTextSplitter)
    (documents : list Document) : result (list Document) :=
  match documents with
  | [] => Ok []
  | doc :: rest =>
      let content_type := _detect_content_type (page_content doc) in
      match adaptive_chunks self content_type doc with
      | Raise e => Raise e
      | Ok chunks =>
          match adaptive_split_documents self rest with
          | Raise e => Raise e
          | Ok all_chunks => Ok (map (tag_content_type content_type) chunks ++ all_chunks)
          end
      end
  end.

End Splitters.

End Chunking.

(** ** [app/core/pinecone_service.py] *)

Module Pinecone.

(** What [delete] asks the index to remove. *)
Inductive selector :=
| DeleteAll
| ByIds (ids : list string)
| ByFilter (filter : dict).

(** The connection a [PineconeService] keeps in [self.index]. *)
Record Service (I : Type) := mkService { index : option I }.
Arguments mkService {I} _.
Arguments index {I} _.

Section PineconeService.

Context {Vec Score : Type}.
(** An index handle, and the state of the index backend. *)
Context {I P : Type}.

(** [self.index_name] *)
Variable index_name : string.
(** [self.pc.Index(name)] *)
Variable pc_Index : string -> M P I.
(** [index.upsert(vectors, namespace)]; the answer is the response's
    'upserted_count', when it has one. *)
Variable index_upsert :
  I -> list (Embeddings.Vector Vec) -> string -> M P (option Z).
(** [index.query(...)]; the answer is the response's 'matches', when it
    has them. *)
Variable index_query :
  I -> Vec -> Z -> string -> option dict -> bool
  -> M P (option (list (Search.Match Score))).
(** [index.delete(...)] *)
Variable index_delete : I -> selector -> string -> M P unit.
(** [index.fetch(ids, namespace)]; the answer is the response's
    'vectors', when it has them. *)
Variable index_fetch :
  I -> list string -> string -> M P (option (gmap string (Search.Fetched Vec))).

Definition St : Type := Service I * P.

Definition backend {A} (m : M P A) : M St A :=
  fun '(svc, p) => let '(r, p') := m p in (r, (svc, p')).

Definition get_index : M St I :=
  fun '(svc, p) =>
    match index svc with
    | Some idx => (Ok idx, (svc, p))
    | None =>
        match pc_Index index_name p with
        | (Ok idx, p') => (Ok idx, (mkService (Some idx), p'))
        | (Raise e, p') => (Raise e, (svc, p'))
        end
    end.

(** The loop of [upsert] over the offsets
    [range(0, len(vectors), batch_size)]. *)
Fixpoint upsert_batches (idx : I) (namespace : string) (n : nat)
    (vectors : list (Embeddings.Vector Vec)) (offsets : list nat)
    (total_upserted : Z) : M St Z :=
  match offsets with
  | [] => ret total_upserted
  | i :: rest =>
      let batch := slice i n vectors in
      response <~ backend (index_upsert idx batch namespace) ;;
      let upserted :=
        match response with
        | Some upserted_count => upserted_count
        | None => Z.of_nat (length batch)
        end in
      upsert_batches idx namespace n vectors rest (total_upserted + upserted)
  end.

Definition upsert (vectors : list (Embeddings.Vector Vec)) (namespace : string)
    (batch_size : Z) : M St dict :=
  idx <~ get_index ;;
  offsets <~ lift (range_step (length vectors) batch_size) ;;
  total_upserted <~ upsert_batches idx namespace (Z.to_nat batch_size)
                      vectors offsets 0 ;;
  ret (<["upserted_count" := VInt total_upserted]>
       {["namespace" := VStr namespace]}).

Definition query (query_vector : Vec) (top_k : Z) (namespace : string)
    (filter : option dict) (include_metadata : bool)
    : M St (list (Search.Match Score)) :=
  idx <~ get_index ;;
  response <~ backend (index_query idx query_vector top_k namespace filter
                         include_metadata) ;;
  ret (match response with Some matches => matches | None => [] end).

(** [delete(ids, delete_all, namespace, filter)]: an empty list of ids
    and an empty filter count as absent. *)
Definition delete (ids : option (list string)) (delete_all : bool)
    (namespace : string) (filter : option dict) : M St unit :=
  idx <~ get_index ;;
  if delete_all then backend (index_delete idx DeleteAll namespace)
  else
    match ids with
    | Some (id :: more) => backend (index_delete idx (ByIds (id :: more)) namespace)
    | _ =>
        match filter with
        | Some f =>
            if decide (f = ∅) then ret tt
            else backend (index_delete idx (ByFilter f) namespace)
        | None => ret tt
        end
    end.

Definition fetch (ids : list string) (namespace : string)
    : M St (gmap string (Search.Fetched Vec)) :=
  idx <~ get_index ;;
  response <~ backend (index_fetch idx ids namespace) ;;
  ret (match response with Some vectors => vectors | None => ∅ end).

End PineconeService.

End Pinecone.

(** ** [app/services/document_service.py] and
       [app/models/document_models.py] *)

Module Documents.

Inductive DocumentStatus := PENDING | PROCESSING | COMPLETED | FAILED.

(** A [DocumentMetadata], without its wall-clock [upload_date]. *)
Record DocumentMetadata := mkMetadata {
  document_id : string;
  filename : string;
  file_type : string;
  file_size : Z;
  status : DocumentStatus;
  num_pages : value;
  num_chunks : option Z;
  title : value;
  author : value;
}.

Definition with_status (s : DocumentStatus) (md : DocumentMetadata)
    : DocumentMetadata :=
  mkMetadata (document_id md) (filename md) (file_type md) (file_size md) s
    (num_pages md) (num_chunks md) (title md) (author md).

Definition with_num_chunks (n : Z) (md : DocumentMetadata) : DocumentMetadata :=
  mkMetadata (document_id md) (filename md) (file_type md) (file_size md)
    (status md) (num_pages md) (Some n) (title md) (author md).

(** The three assignments made from the first loaded document. *)
Definition with_first_document (first_doc : Document) (md : DocumentMetadata)
    : DocumentMetadata :=
  mkMetadata (document_id md) (filename md) (file_type md) (file_size md)
    (status md)
    (dict_get (metadata first_doc) "num_pages" VNone)
    (num_chunks md)
    (dict_get (metadata first_doc) "title" (VStr (filename md)))
    (dict_get (metadata first_doc) "author" (VStr "")).

(** A Python dictionary whose order matters: the entries in insertion
    order, one per key. *)
Fixpoint od_get {V} (k : string) (d : list (string * V)) : option V :=
  match d with
  | [] => None
  | (k', v) :: rest => if decide (k = k') then Some v else od_get k rest
  end.

(** [d[k] = v]: an existing key keeps its place, a new one goes last. *)
Fixpoint od_set {V} (k : string) (v : V) (d : list (string * V))
    : list (string * V) :=
  match d with
  | [] => [(k, v)]
  | (k', v') :: rest =>
      if decide (k = k') then (k, v) :: rest else (k', v') :: od_set k v rest
  end.

(** [del d[k]] for a key that is present. *)
Definition od_del {V} (k : string) (d : list (string * V)) : list (string * V) :=
  filter (fun kv => fst kv <> k) d.

(** [list(d.values())] *)
Definition od_values {V} (d : list (string * V)) : list V := map snd d.

(** A slice bound brought into [0, len]. *)
Definition clamp (len : nat) (i : Z) : nat :=
  if i <? 0 then Z.to_nat (Z.max 0 (Z.of_nat len + i))
  else Z.to_nat (Z.min i (Z.of_nat len)).

(** [l[a:b]] *)
Definition py_slice {A} (a b : Z) (l : list A) : list A :=
  take (clamp (length l) b - clamp (length l) a) (drop (clamp (length l) a) l).

(** [chunk.metadata["document_id"] = document_id] and
    [chunk.metadata["id"] = f"{document_id}_chunk_{i}"] *)
Definition tag_chunk (doc_id : string) (i : nat) (chunk : Document) : Document :=
  mkDocument (page_content chunk)
    (<["id" := VStr (doc_id +:+ "_chunk_" +:+ pretty i)]>
     (<["document_id" := VStr doc_id]> (metadata chunk))).

Definition UnboundLocalError : exn :=
  Exn "UnboundLocalError"
    "cannot access local variable 'document_id' where it is not associated with a value".

Section DocumentService.

Context {Vec : Type}.
(** Everything the collaborating services can mutate. *)
Context {W : Type}.

(** [str(uuid.uuid4())] *)
Variable uuid4 : M W string.
(** [self.document_loader.load_from_bytes] *)
Variable load_from_bytes :
  list Byte.byte -> string -> string -> M W (list Document).
(** [self.text_splitter.split_documents] *)
Variable split_documents : list Document -> M W (list Document).
(** [self.embeddings_service.embed_documents] *)
Variable embed_documents : list Document -> M W (list (Embeddings.Vector Vec)).
(** [self.pinecone_service.upsert(vectors=vectors)] *)
Variable pinecone_upsert : list (Embeddings.Vector Vec) -> M W dict.
(** [self.pinecone_service.delete(filter=filter)] *)
Variable pinecone_delete : dict -> M W unit.

(** [self.documents_db] and the collaborators' state. *)
Definition St : Type := list (string * DocumentMetadata) * W.

Definition world {A} (m : M W A) : M St A :=
  fun '(db, w) => let '(r, w') := m w in (r, (db, w')).

Definition documents_db : M St (list (string * DocumentMetadata)) :=
  fun st => (Ok (fst st), st).

(** The registry entry of [doc_id] becomes [md]; the registry holds the
    very object the method works on, so every assignment to a field of
    [metadata] shows in the registry. *)
Definition store (doc_id : string) (md : DocumentMetadata) : M St unit :=
  modify (fun '(db, w) => (od_set doc_id md db, w)).

(** The body of the [try] block, once the id is drawn. *)
Definition process_document (doc_id : string) (file_content : list Byte.byte)
    (name type : string) : M St DocumentMetadata :=
  let md := mkMetadata doc_id name type (Z.of_nat (length file_content))
              PROCESSING VNone None VNone VNone in
  store doc_id md ;;;
  documents <~ world (load_from_bytes file_content name type) ;;
  let md := match documents with
            | first_doc :: _ => with_first_document first_doc md
            | [] => md
            end in
  store doc_id md ;;;
  chunks <~ world (split_documents documents) ;;
  let md := with_num_chunks (Z.of_nat (length chunks)) md in
  store doc_id md ;;;
  vectors <~ world (embed_documents (imap (tag_chunk doc_id) chunks)) ;;
  world (pinecone_upsert vectors) ;;;
  let md := with_status COMPLETED md in
  store doc_id md ;;;
  ret md.

(** The [except] block: the entry of [doc_id], if there is one, becomes
    FAILED, and the exception is raised again. *)
Definition mark_failed (doc_id : string) (e : exn) : M St DocumentMetadata :=
  db <~ documents_db ;;
  (match od_get doc_id db with
   | Some md => store doc_id (with_status FAILED md)
   | None => ret tt
   end) ;;;
  raise e.

Definition upload_and_process_document (file_content : list Byte.byte)
    (name type : string) : M St DocumentMetadata :=
  fun st =>
    match world uuid4 st with
    | (Raise _, st') => (Raise UnboundLocalError, st')
    | (Ok doc_id, st') =>
        try_except (process_document doc_id file_content name type)
          (mark_failed doc_id) st'
    end.

Definition get_document (doc_id : string) : M St (option DocumentMetadata) :=
  db <~ documents_db ;; ret (od_get doc_id db).

Definition delete_document (doc_id : string) : M St bool :=
  db <~ documents_db ;;
  match od_get doc_id db with
  | None => ret false
  | Some _ =>
      world (pinecone_delete {["document_id" := VStr doc_id]}) ;;;
      modify (fun '(db, w) => (od_del doc_id db, w)) ;;;
      ret true
  end.

Definition list_documents (skip limit : Z) : M St (list DocumentMetadata) :=
  db <~ documents_db ;;
  ret (py_slice skip (skip + limit) (od_values db)).

Definition get_document_count : M St Z :=
  db <~ documents_db ;; ret (Z.of_nat (length db)).

End DocumentService.

End Documents.

(** ** [app/services/summarization_service.py] *)

Module Jobs.

(** One entry of [self.jobs]. *)
Record Job := mkJob {
  job_status : string;
  job_document_ids : list string;
  job_length : string;
  job_total : Z;
  job_completed : Z;
  job_results : list dict;
}.

Section SummarizationService.

Context {W : Type}.

(** [str(uuid.uuid4())] *)
Variable uuid4 : M W string.
(** [self.document_service.get_document] *)
Variable get_document : string -> M W (option Documents.DocumentMetadata).
(** [self.chain.summarize] *)
Variable chain_summarize : string -> string -> string -> M W dict.

Definition St : Type := gmap string Job * W.

Definition world {A} (m : M W A) : M St A :=
  fun '(jobs, w) => let '(r, w') := m w in (r, (jobs, w')).

Definition summarize_document (doc_id length document_type : string)
    : M St dict :=
  doc_metadata <~ world (get_document doc_id) ;;
  match doc_metadata with
  | None => raise (ValueError ("Document " +:+ doc_id +:+ " not found"))
  | Some _ =>
      ret (<["document_id" := VStr doc_id]>
           (<["summary" :=
                VStr "Summary generation requires document text retrieval implementation"]>
            (<["length" := VStr length]>
             {["method" := VStr "placeholder"]})))
  end.

Definition summarize_text (text length document_type : string) : M St dict :=
  world (chain_summarize text length document_type).

Definition batch_summarize (document_ids : list string) (length : string)
    : M St string :=
  job_id <~ world uuid4 ;;
  modify (fun '(jobs, w) =>
            (<[job_id := mkJob "pending" document_ids length
                           (Z.of_nat (List.length document_ids)) 0 []]> jobs, w)) ;;;
  ret job_id.

Definition get_job_status (job_id : string) : M St Job :=
  fun '(jobs, w) =>
    match jobs !! job_id with
    | None => (Raise (ValueError ("Job " +:+ job_id +:+ " not found")), (jobs, w))
    | Some job => (Ok job, (jobs, w))
    end.

End SummarizationService.

End Jobs.

(** ** Recording collaborators

    Collaborators that keep a log of the calls made to them. *)

Module Recording.

(** An embedding client that logs each batch it is sent and maps a text
    to its length. *)
Definition logging_embed_documents : list string -> M (list (list string)) (list nat) :=
  fun texts log => (Ok (map String.length texts), log ++ [texts]).

(** An index that logs each batch it is asked to upsert and reports no
    count. *)
Definition logging_upsert {Vec : Type}
    : unit -> list (Embeddings.Vector Vec) -> string
      -> M (list (list (Embeddings.Vector Vec))) (option Z) :=
  fun _ batch _ log => (Ok None, log ++ [batch]).

(** A connection that always succeeds. *)
Definition connect {P : Type} : string -> M P unit := fun _ => ret tt.

(** An LLM chain that logs the prompt and the inputs of each call and
    always answers [reply]. *)
Definition logging_chain {P I : Type} (reply : string)
    : P -> I -> M (list (P * I)) (gmap string string) :=
  fun prompt inputs log => (Ok {["text" := reply]}, log ++ [(prompt, inputs)]).

End Recording.

(** ** Reference functions for the embedding service *)

Module EmbeddingsSpec.

(** The texts of a batch that have no entry in the cache [c], in order
    and with their repetitions. *)
Fixpoint uncached {Vec : Type} (key : string -> string) (c : gmap string Vec)
    (texts : list string) : list string :=
  match texts with
  | [] => []
  | text :: rest =>
      match c !! key text with
      | Some _ => uncached key c rest
      | None => text :: uncached key c rest
      end
  end.

(** The texts [embed_texts] sends to the client. *)
Definition texts_to_embed {Vec : Type} (key : string -> string)
    (svc : Embeddings.Service Vec) (texts : list string) : list string :=
  if Embeddings.use_cache svc then uncached key (Embeddings.cache svc) texts
  else texts.

(** The assignments [cache[key(text)] = embedding] for a list of
    (text, embedding) pairs, in order. *)
Definition cache_after {Vec : Type} (key : string -> string)
    (c : gmap string Vec) (writes : list (string * Vec)) : gmap string Vec :=
  foldl (fun c w => <[key (fst w) := snd w]> c) c writes.

(** The successive slices [l[i:i+n]] for [i] in [range(0, len(l), n)]. *)
Definition batches_of {A : Type} (n : nat) (l : list A) : list (list A) :=
  map (fun i => slice i n l) (range_from (length l) 0 (length l) n).

(** The state a client is left in by calls on the given batches. *)
Definition client_after {B A R : Type} (call : A -> M B R) (b : B)
    (batches : list A) : B :=
  foldl (fun b batch => snd (call batch b)) b batches.

(** The service after the vectors [writes] were stored for the given
    texts. *)
Definition stored {Vec : Type} (key : string -> string)
    (svc : Embeddings.Service Vec) (writes : list (string * Vec))
    : Embeddings.Service Vec :=
  if Embeddings.use_cache svc
  then Embeddings.set_cache (fun c => cache_after key c writes) svc
  else svc.

End EmbeddingsSpec.

(** ** More concrete cases *)

Module Cases.

(** A service whose batch size is negative, with one cached text. *)
Definition backwards_service : Embeddings.Service nat :=
  Embeddings.mkService (-1) true {["budget" := 600%nat]}.

(** A service whose batch size is zero, with one cached text. *)
Definition stuck_service : Embeddings.Service nat :=
  Embeddings.mkService 0 true {["budget" := 600%nat]}.

(** A service that does not cache. *)
Definition plain_service : Embeddings.Service nat :=
  Embeddings.mkService 2 false ∅.

(** The warm service once "plan" was embedded. *)
Definition warmer_service : Embeddings.Service nat :=
  Embeddings.mkService 2 true (<["plan" := 4%nat]> {["budget" := 600%nat]}).

(** A QA chain that always gives the same answer. *)
Definition constant_answer (reply : string) : string -> string -> bool -> M unit dict :=
  fun _ _ _ => ret {["answer" := VStr reply]}.

(** A langchain splitter that returns the documents as they are. *)
Definition no_split_documents
    : Z -> Z -> list string -> list Document -> result (list Document) :=
  fun _ _ _ documents => Ok documents.

(** A fenced snippet and a plain sentence. *)
Definition notes : list Document :=
  [ mkDocument "```print(1)```" {["source" := VStr "a.md"]};
    mkDocument "Plain sentence." ∅ ].

(** A connected index service. *)
Definition connected : Pinecone.Service unit := Pinecone.mkService (Some tt).

(** Five vectors to upsert. *)
Definition five_vectors : list (Embeddings.Vector nat) :=
  map (fun i => Embeddings.mkVector (VInt (Z.of_nat i)) (Some i) ∅) (seq 0 5).

(** Collaborators of the document service: ids are drawn from a list,
    the loader yields one document per upload, the splitter cuts
    nothing, embedding and upsert succeed or fail as told. *)
Definition next_uuid : M (list string) string :=
  fun ids =>
    match ids with
    | [] => (Raise (Exn "OSError" "no randomness"), [])
    | id :: later => (Ok id, later)
    end.

Definition one_page_loader
    : list Byte.byte -> string -> string -> M (list string) (list Document) :=
  fun _ name _ => ret [mkDocument "Page one." {["title" := VStr name]}].

Definition keep_documents : list Document -> M (list string) (list Document) :=
  fun documents => ret documents.

Definition embed_as_zero
    : list Document -> M (list string) (list (Embeddings.Vector nat)) :=
  fun chunks =>
    ret (imap (fun i chunk => Embeddings.prepare_vector i chunk (Some 0%nat)) chunks).

Definition index_down
    : list (Embeddings.Vector nat) -> M (list string) dict :=
  fun _ => raise (Exn "PineconeException" "index unavailable").

Definition index_up
    : list (Embeddings.Vector nat) -> M (list string) dict :=
  fun vectors => ret {["upserted_count" := VInt (Z.of_nat (length vectors))]}.

Definition delete_ok : dict -> M (list string) unit := fun _ => ret tt.

(** A text splitter that rejects its configuration. *)
Definition splitter_error : exn :=
  Exn "ValueError" "Got a larger chunk overlap than chunk size".

Definition broken_splitter
    : Z -> Z -> list string -> string -> result (list string) :=
  fun _ _ _ _ => Raise splitter_error.

(** An LLM chain that cannot summarize the text [bad] and answers
    [reply] to every other one. *)
Definition overloaded : exn := Exn "APIError" "model overloaded".

Definition failing_on (bad reply : string)
    : Summarization.prompt -> string -> M unit (gmap string string) :=
  fun _ text =>
    if decide (text = bad) then raise overloaded else ret {["text" := reply]}.

(** A conversation of six turns. *)
Definition six_turns : list QA.turn :=
  [ QA.mkTurn "q1" "a1"; QA.mkTurn "q2" "a2"; QA.mkTurn "q3" "a3";
    QA.mkTurn "q4" "a4"; QA.mkTurn "q5" "a5"; QA.mkTurn "q6" "a6" ].

(** A splitter that cuts every document into two chunks with the
    document's content and metadata. *)
Definition split_in_two : list Document -> M (list string) (list Document) :=
  fun documents => ret (documents ++ documents).

(** A registry with one completed document. *)
Definition report : Documents.DocumentMetadata :=
  Documents.mkMetadata "doc-a" "report.pdf" "pdf" 2048 Documents.COMPLETED
    (VInt 3) (Some 7) (VStr "Report") (VStr "").

Definition one_document : list (string * Documents.DocumentMetadata) :=
  [("doc-a", report)].

End Cases.

(** ** Reference relations for the search service *)

Module SearchSpec.

(** What [format_match] makes of a match. *)
Definition formats_to {Score} (m : Search.Match Score)
    (r : Search.SearchResult Score) : Prop :=
  Search.document_id r = Search.match_id m /\
  Search.score r = Search.match_score m /\
  Search.result_metadata r = Search.metadata_of m /\
  dict_get (Search.metadata_of m) "text" (VStr "") = VStr (Search.text r).

End SearchSpec.

(** * Properties *)

(** ** Batch summarization *)

Module SummarizationProps.
Import Summarization.

Section Batch.

Context {L : Type}.
Variable chain_invoke : prompt -> string -> M L (gmap string string).
Variable recursive_split_text :
  Z -> Z -> list string -> string -> result (list string).
Variable map_reduce_invoke :
  prompt -> prompt -> list Document -> M L (gmap string string).

Local Abbreviation summarize :=
  (summarize chain_invoke recursive_split_text map_reduce_invoke).
Local Abbreviation batch_summarize :=
  (batch_summarize chain_invoke recursive_split_text map_reduce_invoke).
Local Abbreviation state_before :=
  (state_before chain_invoke recursive_split_text map_reduce_invoke).

(** One text within the single-pass limit. *)
Lemma summarize_single_pass text length document_type l :
  (max_doc_length <? _estimate_tokens text) = false ->
  summarize text length document_type l =
  match chain_invoke (get_summary_prompt length document_type) text l with
  | (Ok result, l') =>
      (Ok (<["summary" := VStr (strip (dict_get result "text" ""))]>
           (<["length" := VStr length]>
            (<["document_type" := VStr document_type]>
             {["method" := VStr "single_pass"]}))), l')
  | (Raise e, l') => (Raise e, l')
  end.
Proof.
  intros Hshort. unfold Summarization.summarize. rewrite Hshort.
  unfold bind, ret. destruct (chain_invoke _ text l) as [[result|e] l']; reflexivity.
Qed.

Lemma batch_summarize_cons text rest length document_type l :
  batch_summarize (text :: rest) length document_type l =
  match batch_summarize rest length document_type
          (snd (summarize text length document_type l)) with
  | (Ok summaries, l') =>
      (Ok (entry_of (fst (summarize text length document_type l))
             length document_type :: summaries), l')
  | (Raise e, l') => (Raise e, l')
  end.
Proof.
  cbn [Summarization.batch_summarize]. unfold bind at 1, try_except.
  destruct (summarize text length document_type l) as [[summary|e] l1];
    cbn [fst snd entry_of]; unfold ret at 1.
  - unfold bind.
    destruct (batch_summarize rest length document_type l1) as [[ss|e] l2];
      reflexivity.
  - unfold bind.
    destruct (batch_summarize rest length document_type l1) as [[ss|e'] l2];
      reflexivity.
Qed.

Lemma batch_summarize_total texts length document_type l :
  exists summaries l',
    batch_summarize texts length document_type l = (Ok summaries, l').
Proof.
  revert l. induction texts as [|text rest IH]; intros l.
  - exists [], l. reflexivity.
  - rewrite batch_summarize_cons.
    destruct (IH (snd (summarize text length document_type l)))
      as (ss & l' & ->).
    eauto.
Qed.

(** The entries of a batch, one per text and in input order. *)
Lemma batch_summarize_entries
    (texts : list string) (length document_type : string) (l : L) :
  exists summaries l',
    batch_summarize texts length document_type l = (Ok summaries, l') /\
    List.length summaries = List.length texts /\
    forall i text, texts !! i = Some text ->
      summaries !! i =
        Some (entry_of
                (fst (summarize text length document_type
                        (state_before texts length document_type l i)))
                length document_type).
Proof.
  revert l. induction texts as [|text rest IH]; intros l.
  - exists [], l. repeat split. intros i t Hi. discriminate.
  - destruct (IH (snd (summarize text length document_type l)))
      as (ss & l' & Hrun & Hlen & Hnth).
    exists (entry_of (fst (summarize text length document_type l))
              length document_type :: ss), l'.
    split; [|split].
    + rewrite batch_summarize_cons, Hrun. reflexivity.
    + cbn. rewrite Hlen. reflexivity.
    + intros [|i] t Hi.
      * cbn in Hi. injection Hi as <-. reflexivity.
      * cbn in Hi. transitivity (ss !! i); [reflexivity|].
        rewrite (Hnth i t Hi). unfold state_before.
        cbn [take]. rewrite batch_summarize_cons.
        destruct (batch_summarize_total (take i rest) length document_type
                    (snd (summarize text length document_type l)))
          as (ss' & l'' & Hpre).
        rewrite Hpre. reflexivity.
Qed.

(** C7: [batch_summarize] never raises; it returns one entry per text,
    in input order.  The entry of a text is the dictionary [summarize]
    returned for it, in the backend state the earlier texts left; when
    [summarize] raised [e] there, the entry is the dictionary with an
    empty 'summary', 'error' holding [str(e)], and the requested length
    and document type, and the texts after it are still summarized. *)
Theorem batch_summarize_isolates_failures
    (texts : list string) (length document_type : string) (l : L) :
  exists summaries l',
    batch_summarize texts length document_type l = (Ok summaries, l') /\
    List.length summaries = List.length texts /\
    forall i text, texts !! i = Some text ->
      exists entry,
        summaries !! i = Some entry /\
        match fst (summarize text length document_type
                     (state_before texts length document_type l i)) with
        | Ok summary => entry = summary
        | Raise e =>
            entry = <["summary" := VStr ""]>
                    (<["error" := VStr (exn_msg e)]>
                     (<["length" := VStr length]>
                      {["document_type" := VStr document_type]})) /\
            entry !! "summary" = Some (VStr "") /\
            entry !! "error" = Some (VStr (exn_msg e)) /\
            entry !! "length" = Some (VStr length) /\
            entry !! "document_type" = Some (VStr document_type)
        end.
Proof.
  destruct (batch_summarize_entries texts length document_type l)
    as (summaries & l' & Hrun & Hlen & Hnth).
  exists summaries, l'. split; [exact Hrun|]. split; [exact Hlen|].
  intros i text Hi. eexists. split; [exact (Hnth i text Hi)|].
  destruct (fst (summarize text length document_type
                   (state_before texts length document_type l i)))
    as [summary|e]; cbn [entry_of]; [reflexivity|].
  unfold error_entry. split; [reflexivity|].
  split; [|split; [|split]]; by simplify_map_eq.
Qed.

End Batch.

Section LongDocuments.

Context {L : Type}.
Variable chain_invoke : prompt -> string -> M L (gmap string string).
Variable recursive_split_text :
  Z -> Z -> list string -> string -> result (list string).
Variable map_reduce_invoke :
  prompt -> prompt -> list Document -> M L (gmap string string).

Local Abbreviation summarize :=
  (summarize chain_invoke recursive_split_text map_reduce_invoke).
Local Abbreviation _map_reduce_summarize :=
  (_map_reduce_summarize recursive_split_text map_reduce_invoke).

Lemma map_reduce_fields text l r l' :
  _map_reduce_summarize text l = (Ok r, l') ->
  r !! "method" = Some (VStr "map_reduce") /\
  r !! "length" = Some (VStr "standard") /\
  r !! "document_type" = Some (VStr "general").
Proof.
  unfold Summarization._map_reduce_summarize, bind, lift.
  destruct (recursive_split_text _ _ _ text) as [chunks|e]; [|discriminate].
  destruct (map_reduce_invoke _ _ _ l) as [[res|e] l1]; [|discriminate].
  unfold ret. intros [= <- <-].
  repeat split; by simplify_map_eq.
Qed.

(** C9: a text whose estimated token count, its length divided by 4,
    exceeds 4000 is summarized by [_map_reduce_summarize] whatever
    [length] and [document_type] were requested; a result it returns
    has 'length' 'standard', 'document_type' 'general' and 'method'
    'map_reduce'; and it does return one whenever the splitter and the
    map-reduce chain succeed. *)
Theorem summarize_long_text_ignores_request
    (text length document_type : string) (l : L) :
  4000 < Z.of_nat (String.length text) / 4 ->
  summarize text length document_type l = _map_reduce_summarize text l /\
  (forall r l', summarize text length document_type l = (Ok r, l') ->
     r !! "method" = Some (VStr "map_reduce") /\
     r !! "length" = Some (VStr "standard") /\
     r !! "document_type" = Some (VStr "general")) /\
  (forall chunks res l',
     recursive_split_text 3000 200 TextSplitter.langchain_separators text
       = Ok chunks ->
     map_reduce_invoke map_summary_prompt reduce_summary_prompt
       (map (fun chunk => mkDocument chunk ∅) chunks) l = (Ok res, l') ->
     exists r, summarize text length document_type l = (Ok r, l')).
Proof.
  intros Hlong.
  assert (Hpath : summarize text length document_type l
                  = _map_reduce_summarize text l).
  { unfold Summarization.summarize, max_doc_length, _estimate_tokens.
    destruct (Z.ltb_spec 4000 (Z.of_nat (String.length text) / 4)); [reflexivity|lia]. }
  split; [exact Hpath|]. split.
  - intros r l' Hrun. rewrite Hpath in Hrun.
    exact (map_reduce_fields _ _ _ _ Hrun).
  - intros chunks res l' Hsplit Hchain. rewrite Hpath.
    unfold Summarization._map_reduce_summarize, bind, lift.
    rewrite Hsplit, Hchain. unfold ret. eauto.
Qed.

End LongDocuments.

(** The theorem above at a 16004-character text, 'brief' and
    'technical' being requested. *)
Lemma summarize_long_text_ignores_request_witness :
  4000 < Z.of_nat (String.length Scripted.long_text) / 4 /\
  exists r,
    summarize (Scripted.constant_chain "text" "short")
      Scripted.whole_text_splitter
      (Scripted.constant_map_reduce " combined ")
      Scripted.long_text "brief" "technical" tt = (Ok r, tt) /\
    r !! "length" = Some (VStr "standard") /\
    r !! "document_type" = Some (VStr "general").
Proof.
  assert (Hlong : 4000 < Z.of_nat (String.length Scripted.long_text) / 4)
    by (vm_compute; reflexivity).
  split; [exact Hlong|].
  destruct (summarize_long_text_ignores_request
              (Scripted.constant_chain "text" "short")
              Scripted.whole_text_splitter
              (Scripted.constant_map_reduce " combined ")
              Scripted.long_text "brief" "technical" tt Hlong)
    as (_ & Hfields & Hreturns).
  destruct (Hreturns [Scripted.long_text] {["output_text" := " combined "]} tt
              eq_refl eq_refl) as (r & Hr).
  exists r. split; [exact Hr|].
  destruct (Hfields r tt Hr) as (_ & Hlen & Hty). split; assumption.
Defined.

(** Three texts of which the second cannot be summarized: the batch
    returns three entries, the second one recording the error. *)
Lemma batch_summarize_isolates_failures_witness :
  exists first second third,
    batch_summarize (Cases.failing_on "bad" "fine") Scripted.whole_text_splitter
      (Scripted.constant_map_reduce "") ["one"; "bad"; "three"]
      "brief" "general" tt
    = (Ok [first; second; third], tt) /\
    first !! "summary" = Some (VStr "fine") /\
    second !! "summary" = Some (VStr "") /\
    second !! "error" = Some (VStr "model overloaded") /\
    third !! "summary" = Some (VStr "fine").
Proof.
  destruct (batch_summarize_isolates_failures (Cases.failing_on "bad" "fine")
              Scripted.whole_text_splitter (Scripted.constant_map_reduce "")
              ["one"; "bad"; "three"] "brief" "general" tt)
    as (summaries & [] & Hrun & Hlen & Hnth).
  destruct summaries as [|first [|second [|third [|]]]]; try discriminate Hlen.
  exists first, second, third. split; [exact Hrun|].
  destruct (Hnth 0%nat "one" eq_refl) as (e1 & [= <-] & H1).
  destruct (Hnth 1%nat "bad" eq_refl) as (e2 & [= <-] & H2).
  destruct (Hnth 2%nat "three" eq_refl) as (e3 & [= <-] & H3).
  assert (Hgood : forall p text l, text <> "bad" ->
            Cases.failing_on "bad" "fine" p text l = (Ok {["text" := "fine"]}, l)).
  { intros p text l Hne. unfold Cases.failing_on.
    destruct (decide (text = "bad")); [contradiction|reflexivity]. }
  assert (Hbad : forall p l,
            Cases.failing_on "bad" "fine" p "bad" l = (Raise Cases.overloaded, l)).
  { intros p l. unfold Cases.failing_on.
    destruct (decide ("bad" = "bad")); [reflexivity|contradiction]. }
  rewrite summarize_single_pass in H1, H2, H3 by reflexivity.
  rewrite Hgood in H1, H3 by discriminate. rewrite Hbad in H2.
  cbn [fst] in H1, H2, H3.
  destruct H2 as (_ & Hsummary & Herror & _).
  subst first third. unfold dict_get. rewrite lookup_singleton_eq.
  split; [by rewrite lookup_insert_eq|]. split; [exact Hsummary|].
  split; [exact Herror|]. by rewrite lookup_insert_eq.
Defined.

End SummarizationProps.

(** ** Conversation history *)

Module QAProps.
Import QA.

Section History.

Context {L : Type}.
Variable chain_invoke : prompt -> gmap string string -> M L (gmap string string).

Local Abbreviation answer_with_conversation_history :=
  (answer_with_conversation_history chain_invoke).
Local Abbreviation converse := (converse chain_invoke).

Lemma last_n_idem {A} (k : nat) (h : list A) :
  last_n k (last_n k h) = last_n k h.
Proof.
  unfold last_n. rewrite length_drop.
  replace (length h - (length h - k) - k)%nat with 0%nat by lia.
  reflexivity.
Qed.

Lemma format_history_window (h : list turn) :
  format_history h = format_history (last_n 5 h).
Proof. unfold format_history. rewrite last_n_idem. reflexivity. Qed.

(** One successful call that updates history. *)
Lemma answer_appends q context qa l r qa' l' :
  answer_with_conversation_history q context true (qa, l) = (Ok r, (qa', l')) ->
  exists res,
    chain_invoke conversational_qa_prompt
      (<["chat_history" := format_history (chat_history qa)]>
       (<["context" := context]> {["question" := q]})) l = (Ok res, l') /\
    chat_history qa' =
      (chat_history qa ++ [mkTurn q (strip (dict_get res "text" ""))])%list /\
    r !! "answer" = Some (VStr (strip (dict_get res "text" ""))).
Proof.
  unfold QA.answer_with_conversation_history, bind, self, llm, history_append,
    modify, ret. cbn [fst].
  destruct (chain_invoke _ _ l) as [[res|e] l1]; [|discriminate].
  intros [= <- <- <-]. exists res. split; [reflexivity|]. split; [reflexivity|].
  by simplify_map_eq.
Qed.

Lemma join_starts (sep first : string) (c : ascii) (rest : string)
    (others : list string) :
  first = String c rest ->
  exists tail, join sep (first :: others) = String c tail.
Proof.
  intros ->. destruct others as [|p ps]; cbn; eauto.
Qed.

(** The transcript in terms of the turns it renders. *)
Lemma format_history_recent (h : list turn) :
  format_history h =
  match last_n 5 h with
  | [] => "No previous conversation."
  | _ :: _ =>
      join TextSplitter.nl
        (map (fun item => "Q: " +:+ question item +:+ TextSplitter.nl
                          +:+ "A: " +:+ answer item) (last_n 5 h))
  end.
Proof.
  unfold format_history. destruct (last_n 5 h) as [|t ts]; [reflexivity|].
  fold render_turn. change (fun item => render_turn item) with render_turn.
  cbn [map].
  destruct (join_starts TextSplitter.nl (render_turn t) "Q"
              (": " +:+ question t +:+ TextSplitter.nl +:+ "A: " +:+ answer t)
              (map render_turn ts) eq_refl) as (tail & ->).
  destruct (decide (String "Q" tail = "")); [discriminate|reflexivity].
Qed.

(** The last five turns of a history. *)
Lemma last_n_recent {A} (h : list A) :
  h = take (length h - 5) h ++ last_n 5 h /\
  (length (last_n 5 h) <= 5)%nat /\
  (take (length h - 5) h <> [] -> length (last_n 5 h) = 5%nat).
Proof.
  unfold last_n. split; [by rewrite take_drop|].
  rewrite length_drop. split; [lia|].
  intros Holder.
  destruct (decide (length h <= 5)%nat) as [Hshort|Hlong]; [|lia].
  exfalso. apply Holder.
  replace (length h - 5)%nat with 0%nat by lia. reflexivity.
Qed.

(** C8, as the code has it: a call of
    [answer_with_conversation_history] that updates history and
    returns appends its (question, answer) pair to the stored history
    and evicts nothing, so the stored history grows by one turn per
    call.  The bound of five turns applies to the transcript rendered
    into the prompt only: the LLM was called once, with the
    conversational prompt and, under 'chat_history', the most recent
    five turns of the history (all of them when there are fewer),
    rendered as 'Q: ...' and 'A: ...' lines, or the placeholder when
    there is none. *)
Theorem history_grows_by_one_turn
    (q context : string) (qa qa' : QAChain) (l l' : L) (r : dict) :
  answer_with_conversation_history q context true (qa, l) = (Ok r, (qa', l')) ->
  (exists a, chat_history qa' = (chat_history qa ++ [mkTurn q a])%list /\
             r !! "answer" = Some (VStr a)) /\
  length (chat_history qa') = S (length (chat_history qa)) /\
  format_history (chat_history qa) = format_history (last_n 5 (chat_history qa)) /\
  exists older recent res,
    chat_history qa = (older ++ recent)%list /\
    recent = last_n 5 (chat_history qa) /\
    (length recent <= 5)%nat /\
    (older <> [] -> length recent = 5%nat) /\
    chain_invoke conversational_qa_prompt
      (<["chat_history" :=
           match recent with
           | [] => "No previous conversation."
           | _ :: _ =>
               join TextSplitter.nl
                 (map (fun item => "Q: " +:+ question item +:+ TextSplitter.nl
                                   +:+ "A: " +:+ answer item) recent)
           end]>
       (<["context" := context]> {["question" := q]})) l = (Ok res, l') /\
    chat_history qa'
    = (chat_history qa ++ [mkTurn q (strip (dict_get res "text" ""))])%list.
Proof.
  intros Hrun.
  destruct (answer_appends _ _ _ _ _ _ _ Hrun) as (res & Hcall & Happ & Hans).
  split; [eauto|]. split; [|split].
  - rewrite Happ, length_app. cbn. lia.
  - apply format_history_window.
  - destruct (last_n_recent (chat_history qa)) as (Hsplit & Hbound & Hfull).
    exists (take (length (chat_history qa) - 5) (chat_history qa)),
      (last_n 5 (chat_history qa)), res.
    split; [exact Hsplit|]. split; [reflexivity|]. split; [exact Hbound|].
    split; [exact Hfull|]. split; [|exact Happ].
    rewrite <- format_history_recent. exact Hcall.
Qed.

End History.

(** One call on the LLM that always answers [reply]. *)
Lemma answer_on_constant_chain (reply q context : string) (h : list turn) :
  exists r,
    answer_with_conversation_history (Scripted.constant_chain "text" reply)
      q context true (mkQAChain h, tt)
    = (Ok r, (mkQAChain (h ++ [mkTurn q (strip reply)]), tt)).
Proof.
  cbv [QA.answer_with_conversation_history bind self llm history_append
         modify ret Scripted.constant_chain fst dict_get chat_history].
  rewrite lookup_singleton_eq. eauto.
Qed.

(** On the LLM that always answers, a session of [n] questions
    succeeds and stores one more turn per question. *)
Lemma converse_stores_every_turn (n : nat) (h : list turn) :
  exists rs,
    converse (Scripted.constant_chain "text" "fine") (Scripted.asks n)
      (mkQAChain h, tt)
    = (Ok rs, (mkQAChain
                 (h ++ replicate n (mkTurn "What changed?" (strip "fine"))), tt)).
Proof.
  revert h. induction n as [|n IH]; intros h.
  - exists []. cbn [replicate]. rewrite app_nil_r. reflexivity.
  - destruct (IH (h ++ [mkTurn "What changed?" (strip "fine")])%list)
      as (rs & Hrun).
    destruct (answer_on_constant_chain "fine" "What changed?"
                "The budget grew." h) as (r & Hone).
    exists (r :: rs).
    change (Scripted.asks (S n))
      with (("What changed?", "The budget grew.") :: Scripted.asks n).
    cbn [QA.converse]. unfold bind at 1. rewrite Hone.
    unfold bind at 1. rewrite Hrun. rewrite <- app_assoc. reflexivity.
Qed.

(** C8 as stated fails: no bound [N] holds for the history stored by
    sessions of a fresh chain. *)
Lemma stored_history_unbounded :
  ~ exists N : nat,
      forall asks rs st',
        converse (Scripted.constant_chain "text" "fine") asks
          Scripted.fresh_chain = (Ok rs, st') ->
        (length (chat_history (fst st')) <= N)%nat.
Proof.
  intros [N Hbound].
  destruct (converse_stores_every_turn (S N) []) as (rs & Hrun).
  specialize (Hbound (Scripted.asks (S N)) rs _ Hrun).
  cbn [fst chat_history] in Hbound.
  rewrite app_nil_l, length_replicate in Hbound. lia.
Qed.

(** Six questions to a fresh chain leave six stored turns, the first
    one included. *)
Example six_turns_are_kept :
  exists rs h,
    converse (Scripted.constant_chain "text" "fine") (Scripted.asks 6)
      Scripted.fresh_chain = (Ok rs, (mkQAChain h, tt)) /\
    length h = 6%nat /\
    h !! 0%nat = Some (mkTurn "What changed?" "fine").
Proof.
  destruct (converse_stores_every_turn 6 []) as (rs & Hrun).
  exists rs, (replicate 6 (mkTurn "What changed?" (strip "fine"))).
  split; [exact Hrun|]. split; reflexivity.
Qed.

(** The theorem above on a recording LLM and a history of six turns:
    the call stores a seventh turn, and the prompt it logged holds the
    last five of the six only. *)
Lemma history_grows_by_one_turn_witness :
  exists r qa' log,
    answer_with_conversation_history (Recording.logging_chain "fine")
      "What changed?" "The budget grew." true
      (mkQAChain Cases.six_turns, [])
    = (Ok r, (qa', log)) /\
    length (chat_history qa') = 7%nat /\
    exists inputs,
      log = [(conversational_qa_prompt, inputs)] /\
      inputs !! "chat_history"
      = Some (join TextSplitter.nl
                (map render_turn (drop 1 Cases.six_turns))).
Proof.
  destruct (answer_with_conversation_history (Recording.logging_chain "fine")
              "What changed?" "The budget grew." true
              (mkQAChain Cases.six_turns, []))
    as [[r|e] [qa' log]] eqn:Hrun.
  - exists r, qa', log. split; [reflexivity|].
    destruct (history_grows_by_one_turn (Recording.logging_chain "fine")
                "What changed?" "The budget grew."
                (mkQAChain Cases.six_turns) qa' [] log r Hrun)
      as (_ & Hlen & _ & older & recent & res & _ & -> & _ & _ & Hcall & _).
    split; [exact Hlen|].
    unfold Recording.logging_chain in Hcall. injection Hcall as _ <-.
    eexists. split; [reflexivity|]. by rewrite lookup_insert_eq.
  - exfalso. revert Hrun.
    unfold QA.answer_with_conversation_history, bind, self, llm,
      Recording.logging_chain. discriminate.
Defined.

End QAProps.

(** ** Search service *)

Module SearchProps.
Import Search.

Lemma format_match_id {Score} (m : Match Score) r :
  format_match m = Ok r -> document_id r = match_id m.
Proof.
  unfold format_match, new_SearchResult.
  destruct (dict_get _ _ _); try discriminate. by intros [= <-].
Qed.

Lemma format_others_excludes {Score} source (matches : list (Match Score)) rs :
  format_others source matches = Ok rs ->
  Forall (fun r => document_id r <> source) rs.
Proof.
  revert rs. induction matches as [|m rest IH]; intros rs; cbn.
  - intros [= <-]. constructor.
  - destruct (decide (match_id m <> source)) as [Hne|_]; [|by apply IH].
    destruct (format_match m) as [r|e] eqn:Hm; [|discriminate].
    destruct (format_others source rest) as [rs'|e]; [|discriminate].
    intros [= <-]. constructor; [|by apply IH].
    by rewrite (format_match_id _ _ Hm).
Qed.

Lemma slice_to_length {A} (k : Z) (l : list A) :
  0 <= k -> Z.of_nat (length (slice_to k l)) <= k.
Proof.
  intros Hk. unfold slice_to.
  destruct (Z.leb_spec 0 k); [|lia]. rewrite length_take. lia.
Qed.

Section SearchService.

Context {Vec Score W : Type}.
Variable embed_text : string -> M W Vec.
Variable pinecone_query :
  Vec -> Z -> string -> option dict -> bool -> M W (list (Match Score)).
Variable pinecone_fetch : list string -> M W (gmap string (Fetched Vec)).
Variable answer_question : string -> string -> bool -> M W dict.

Local Abbreviation search := (search embed_text pinecone_query).
Local Abbreviation search_with_answer :=
  (search_with_answer embed_text pinecone_query answer_question).
Local Abbreviation find_similar_documents :=
  (find_similar_documents pinecone_query pinecone_fetch).

(** C5, as the code has it: when retrieval succeeds and the generation
    step raises, [search_with_answer] re-raises that exception
    unchanged and returns no value, so the retrieved sources do not
    reach the caller. *)
Theorem generation_failure_is_reraised
    (query : string) (top_k : Z) (w w1 w2 : W)
    (found : SearchResponse Score) (e : exn) :
  search query top_k "" None w = (Ok found, w1) ->
  answer_question query (build_context (results found)) true w1 = (Raise e, w2) ->
  search_with_answer query top_k w = (Raise e, w2).
Proof.
  intros Hsearch Hgen.
  unfold Search.search_with_answer, bind. rewrite Hsearch, Hgen. reflexivity.
Qed.

(** C6: a result list returned by [find_similar_documents] holds no
    result with the source document's id and at most [top_k]
    results. *)
Theorem find_similar_excludes_source
    (source : string) (top_k : Z) (w w' : W)
    (rs : list (SearchResult Score)) :
  0 <= top_k ->
  find_similar_documents source top_k w = (Ok rs, w') ->
  Forall (fun r => document_id r <> source) rs /\
  Z.of_nat (length rs) <= top_k.
Proof.
  intros Hk. unfold Search.find_similar_documents, bind, lift, raise, ret.
  destruct (pinecone_fetch [source] w) as [[vectors|e] w1]; [|discriminate].
  destruct (decide (vectors = ∅)); [discriminate|].
  destruct (vectors !! source) as [fetched|]; [|discriminate].
  destruct (pinecone_query _ _ _ _ _ w1) as [[matches|e] w2]; [|discriminate].
  destruct (format_others source matches) as [others|e] eqn:Hfmt; [|discriminate].
  intros [= <- <-]. split.
  - unfold slice_to. destruct (0 <=? top_k);
      apply Forall_take, (format_others_excludes _ _ _ Hfmt).
  - by apply slice_to_length.
Qed.

(** [find_similar_documents] returns whenever the index holds the
    source document and the texts of the matches are strings. *)
Lemma find_similar_returns
    (source : string) (top_k : Z) (w w1 w2 : W)
    (vectors : gmap string (Fetched Vec)) (fetched : Fetched Vec)
    (matches : list (Match Score)) :
  pinecone_fetch [source] w = (Ok vectors, w1) ->
  vectors !! source = Some fetched ->
  pinecone_query (fetched_values fetched) (top_k + 1) "" None true w1
    = (Ok matches, w2) ->
  Forall (fun m => is_ok (format_match m) = true) matches ->
  exists rs, find_similar_documents source top_k w = (Ok rs, w2).
Proof.
  intros Hfetch Hsrc Hquery Htexts.
  unfold Search.find_similar_documents, bind, lift, raise, ret.
  rewrite Hfetch.
  destruct (decide (vectors = ∅)) as [->|_]; [by rewrite lookup_empty in Hsrc|].
  rewrite Hsrc, Hquery.
  assert (exists others, format_others source matches = Ok others) as [others ->].
  { clear Hquery. induction Htexts as [|m rest Hm _ IH]; cbn; [eauto|].
    destruct IH as [others ->].
    destruct (format_match m); [|discriminate].
    destruct (decide (match_id m <> source)); eauto. }
  eauto.
Qed.

End SearchService.

(** C5 as stated fails: retrieval finds three sources, generation
    raises, and the caller gets the exception and no source list. *)
Lemma generation_failure_loses_sources :
  (exists found,
     search (Scripted.constant_embedder 7%nat)
       (Scripted.scripted_query Scripted.passages) "targets" 5 "" None tt
       = (Ok found, tt) /\
     length (results found) = 3%nat) /\
  search_with_answer (Scripted.constant_embedder 7%nat)
    (Scripted.scripted_query Scripted.passages)
    (Scripted.failing_answer Scripted.generation_error) "targets" 5 tt
  = (Raise Scripted.generation_error, tt).
Proof.
  split; [eexists; split|]; vm_compute; reflexivity.
Qed.

(** The re-raise theorem at the same retrieval and generation. *)
Lemma generation_failure_is_reraised_witness :
  search_with_answer (Scripted.constant_embedder 7%nat)
    (Scripted.scripted_query Scripted.passages)
    (Scripted.failing_answer Scripted.generation_error) "targets" 5 tt
  = (Raise Scripted.generation_error, tt).
Proof.
  eapply (generation_failure_is_reraised (Scripted.constant_embedder 7%nat)
            (Scripted.scripted_query Scripted.passages)
            (Scripted.failing_answer Scripted.generation_error)
            "targets" 5 tt tt tt);
    vm_compute; reflexivity.
Defined.

(** The exclusion theorem on an index of three passages, the first of
    which is the source itself. *)
Lemma find_similar_excludes_source_witness :
  0 <= 1 /\
  exists rs,
    find_similar_documents (Scripted.scripted_query Scripted.passages)
      (Scripted.scripted_fetch Scripted.stored_vectors) "doc-1" 1 tt
    = (Ok rs, tt) /\
    map document_id rs = ["doc-2"] /\
    Forall (fun r => document_id r <> "doc-1") rs /\
    Z.of_nat (length rs) <= 1.
Proof.
  assert (Hk : 0 <= 1) by lia.
  split; [exact Hk|]. eexists. split; [vm_compute; reflexivity|].
  split; [reflexivity|].
  apply (find_similar_excludes_source (Scripted.scripted_query Scripted.passages)
           (Scripted.scripted_fetch Scripted.stored_vectors) "doc-1" 1 tt tt _ Hk).
  vm_compute; reflexivity.
Defined.

End SearchProps.

(** ** Embedding service *)

Module EmbeddingsProps.
Import Embeddings.

Section SingleText.

Context {Vec B : Type}.
Variable key : string -> string.
Variable embed_query : string -> M B Vec.

Local Abbreviation embed_text := (embed_text key embed_query).

(** C4, as the code has it: a call of [embed_text] that raises made
    exactly one call to the client, re-raises the client's exception
    unchanged, and leaves the service, its cache included, as it
    was. *)
Theorem embed_text_failure_is_single_uncached_call
    (text : string) (svc svc' : Service Vec) (b b' : B) (e : exn) :
  embed_text text (svc, b) = (Raise e, (svc', b')) ->
  embed_query text b = (Raise e, b') /\ svc' = svc.
Proof.
  unfold Embeddings.embed_text, bind, self, client, cache_store, modify, ret.
  cbn [fst].
  destruct (if use_cache svc then cache svc !! key text else None) as [v|];
    [discriminate|].
  destruct (embed_query text b) as [[v|e0] b1]; [|by intros [= <- <- <-]].
  destruct (use_cache svc); discriminate.
Qed.

(** A miss whose client call raises makes [embed_text] raise. *)
Lemma embed_text_miss_failure
    (text : string) (svc : Service Vec) (b b' : B) (e : exn) :
  (if use_cache svc then cache svc !! key text else None) = None ->
  embed_query text b = (Raise e, b') ->
  embed_text text (svc, b) = (Raise e, (svc, b')).
Proof.
  intros Hmiss Hcall.
  unfold Embeddings.embed_text, bind, self, client. cbn [fst].
  rewrite Hmiss, Hcall. reflexivity.
Qed.

End SingleText.

(** C4 as stated fails: the client is rate-limited once and would
    answer the next call; [embed_text] raises the client's
    RateLimitError after that single call, the answer staying unread in
    the script. *)
Lemma embed_text_does_not_retry :
  embed_text Scripted.identity_key Scripted.scripted_embed_query "budget"
    (Scripted.empty_service, [Raise Scripted.rate_limit_error; Ok 600%nat])
  = (Raise Scripted.rate_limit_error, (Scripted.empty_service, [Ok 600%nat])).
Proof. vm_compute; reflexivity. Qed.

(** The theorem above at the rate-limited call. *)
Lemma embed_text_failure_is_single_uncached_call_witness :
  Scripted.scripted_embed_query "budget"
    [Raise Scripted.rate_limit_error; Ok 600%nat]
  = (Raise Scripted.rate_limit_error, [Ok 600%nat]) /\
  Scripted.empty_service = Scripted.empty_service.
Proof.
  apply (embed_text_failure_is_single_uncached_call Scripted.identity_key
           Scripted.scripted_embed_query "budget").
  vm_compute; reflexivity.
Defined.

(** *** Batches *)

Lemma fill_cons {Vec} (idx : nat) (v : Vec) (writes : list (nat * Vec))
    (embeddings : list (option Vec)) :
  fill embeddings ((idx, v) :: writes) = fill (<[idx := Some v]> embeddings) writes.
Proof. reflexivity. Qed.

Lemma fill_length {Vec} (writes : list (nat * Vec)) (embeddings : list (option Vec)) :
  length (fill embeddings writes) = length embeddings.
Proof.
  revert embeddings. induction writes as [|[idx v] writes IH]; intros embeddings.
  - reflexivity.
  - rewrite fill_cons, IH. apply length_insert.
Qed.

Lemma zip_nil_r {A C} (xs : list A) : zip xs (@nil C) = [].
Proof. destruct xs; reflexivity. Qed.

(** Writing a list of pairs is writing its first [n] pairs, then the
    others. *)
Lemma fill_zip_split {Vec} (n : nat) (idxs : list nat) (vs : list Vec)
    (embeddings : list (option Vec)) :
  fill embeddings (zip idxs vs)
  = fill (fill embeddings (zip idxs (take n vs))) (zip (drop n idxs) (drop n vs)).
Proof.
  revert idxs vs embeddings. induction n as [|n IH]; intros idxs vs embeddings.
  - rewrite take_0, !drop_0, zip_nil_r. reflexivity.
  - destruct idxs as [|idx idxs]; [reflexivity|].
    destruct vs as [|v vs].
    { change (take (S n) (@nil Vec)) with (@nil Vec).
      change (drop (S n) (@nil Vec)) with (@nil Vec).
      rewrite !zip_nil_r. reflexivity. }
    rewrite firstn_cons, !skipn_cons.
    change (zip (idx :: idxs) (v :: vs)) with ((idx, v) :: zip idxs vs).
    change (zip (idx :: idxs) (v :: take n vs)) with ((idx, v) :: zip idxs (take n vs)).
    rewrite !fill_cons. apply IH.
Qed.

Lemma lookup_map {A C} (g : A -> C) (l : list A) (i : nat) :
  map g l !! i = g <$> l !! i.
Proof.
  revert i. induction l as [|a l IH]; intros [|i]; try reflexivity. apply IH.
Qed.

Section Batching.

Context {Vec B : Type}.
Variable key : string -> string.
Variable embed_query : string -> M B Vec.
Variable client_embed_documents : list string -> M B (list Vec).

Local Abbreviation embed_text := (embed_text key embed_query).
Local Abbreviation check_cache := (check_cache (Vec:=Vec) key).
Local Abbreviation store_batch := (store_batch (Vec:=Vec) (B:=B) key).
Local Abbreviation embed_batches := (embed_batches key client_embed_documents).
Local Abbreviation embed_texts := (embed_texts key client_embed_documents).

(** Without a cache every text is a miss. *)
Lemma check_cache_empty (i : nat) (texts : list string) :
  check_cache ∅ i texts
  = (replicate (length texts) None, texts, seq i (length texts)).
Proof.
  revert i. induction texts as [|text rest IH]; intros i; [reflexivity|].
  cbn. rewrite IH, lookup_empty. reflexivity.
Qed.

Lemma check_cache_shape c i texts embeddings texts_to_embed text_indices :
  check_cache c i texts = (embeddings, texts_to_embed, text_indices) ->
  length embeddings = length texts /\
  length text_indices = length texts_to_embed /\
  Forall (fun idx => (idx < i + length texts)%nat) text_indices.
Proof.
  revert i embeddings texts_to_embed text_indices.
  induction texts as [|text rest IH]; intros i es ts ns; cbn.
  - intros [= <- <- <-]. repeat split. constructor.
  - destruct (check_cache c (S i) rest) as [[es' ts'] ns'] eqn:Hrest.
    destruct (IH _ _ _ _ Hrest) as (Hes & Hns & Hbound).
    assert (Hbound' : Forall (fun idx => (idx < i + S (length rest))%nat) ns').
    { eapply Forall_impl; [exact Hbound|]. cbn. intros; lia. }
    destruct (c !! key text); intros [= <- <- <-]; cbn;
      repeat split; try congruence.
    constructor; [lia|assumption].
Qed.

Section Deterministic.

(** The client maps every text [t] to the vector [f t], one vector
    per text and in order. *)
Variable f : string -> Vec.
Hypothesis embed_query_spec :
  forall text b, fst (embed_query text b) = Ok (f text).
Hypothesis embed_documents_spec :
  forall texts b, fst (client_embed_documents texts b) = Ok (map f texts).

(** Writing the fresh vectors of the misses into the slots left by
    the first loop gives, for each text, the cached vector or the
    fresh one. *)
Lemma check_cache_fill c i texts pre embeddings texts_to_embed text_indices :
  check_cache c i texts = (embeddings, texts_to_embed, text_indices) ->
  length pre = i ->
  fill (pre ++ embeddings) (zip text_indices (map f texts_to_embed))
  = pre ++ map (fun text => Some (match c !! key text with
                                  | Some cached => cached
                                  | None => f text
                                  end)) texts.
Proof.
  revert i pre embeddings texts_to_embed text_indices.
  induction texts as [|text rest IH]; intros i pre es ts ns; cbn.
  - intros [= <- <- <-] _. reflexivity.
  - destruct (check_cache c (S i) rest) as [[es' ts'] ns'] eqn:Hrest.
    intros Hrun Hpre.
    assert (Hpre' : forall x : option Vec, length (pre ++ [x]) = S i)
      by (intros x; rewrite length_app; cbn; lia).
    destruct (c !! key text) as [cached|]; injection Hrun as <- <- <-.
    + rewrite (cons_middle (Some cached) pre es'), app_assoc.
      rewrite (IH _ _ _ _ _ Hrest (Hpre' _)), <- app_assoc. reflexivity.
    + change (zip (i :: ns') (map f (text :: ts')))
        with ((i, f text) :: zip ns' (map f ts')).
      rewrite fill_cons.
      replace i with (length pre + 0)%nat at 1 by lia.
      rewrite insert_app_r. cbn [insert list_insert].
      rewrite (cons_middle (Some (f text)) pre es'), app_assoc.
      rewrite (IH _ _ _ _ _ Hrest (Hpre' _)), <- app_assoc. reflexivity.
Qed.

(** The inner loop writes the vectors of one batch at the positions
    recorded for them, and leaves the client alone. *)
Lemma store_batch_writes texts text_indices i :
  Forall (fun idx => (idx < length texts)%nat) text_indices ->
  forall vs j embeddings svc (b : B),
    length embeddings = length texts ->
    (i + j + length vs <= length text_indices)%nat ->
    exists svc',
      store_batch texts text_indices i j vs embeddings (svc, b)
      = (Ok (fill embeddings (zip (drop (i + j) text_indices) vs)), (svc', b)) /\
      use_cache svc' = use_cache svc /\
      batch_size svc' = batch_size svc.
Proof.
  intros Hbound vs. induction vs as [|v vs IH]; intros j es svc b Hes Hfit.
  - exists svc. rewrite zip_nil_r. repeat split.
  - cbn [length] in Hfit.
    destruct (lookup_lt_is_Some_2 text_indices (i + j)) as [idx Hidx]; [lia|].
    assert (Hlt : (idx < length texts)%nat).
    { rewrite Forall_forall in Hbound. apply Hbound.
      eapply list_elem_of_lookup_2. exact Hidx. }
    destruct (lookup_lt_is_Some_2 texts idx Hlt) as [text Htext].
    rewrite (drop_S _ _ _ Hidx).
    change (zip (idx :: drop (S (i + j)) text_indices) (v :: vs))
      with ((idx, v) :: zip (drop (S (i + j)) text_indices) vs).
    rewrite fill_cons.
    cbn [Embeddings.store_batch].
    unfold bind at 1, lift at 1, getitem at 1. rewrite Hidx.
    unfold bind at 1, lift at 1, setitem at 1.
    destruct (decide (idx < length es)%nat) as [_|Hno]; [|lia].
    unfold bind at 1, self at 1. cbn [fst].
    replace (S (i + j)) with (i + S j)%nat by lia.
    destruct (use_cache svc) eqn:Hcache.
    + unfold bind at 1. unfold bind at 1, lift at 1, getitem at 1.
      rewrite Htext. unfold cache_store, modify.
      destruct (IH (S j) (<[idx := Some v]> es)
                  (set_cache (insert (key text) v) svc) b) as (svc' & Hrun & Hc & Hb).
      { rewrite length_insert. exact Hes. }
      { lia. }
      exists svc'. rewrite Hrun. repeat split; [|exact Hb].
      rewrite Hc. exact Hcache.
    + unfold bind at 1, ret at 1.
      destruct (IH (S j) (<[idx := Some v]> es) svc b) as (svc' & Hrun & Hc & Hb).
      { rewrite length_insert. exact Hes. }
      { lia. }
      exists svc'. rewrite Hrun. repeat split; [|exact Hb].
      rewrite Hc. exact Hcache.
Qed.

(** The outer loop, from offset [i] on, writes the fresh vector of
    every remaining miss. *)
Lemma embed_batches_writes n texts texts_to_embed text_indices :
  (0 < n)%nat ->
  length text_indices = length texts_to_embed ->
  Forall (fun idx => (idx < length texts)%nat) text_indices ->
  forall fuel i embeddings svc (b : B),
    length embeddings = length texts ->
    (length texts_to_embed - i <= fuel)%nat ->
    exists st',
      embed_batches n texts texts_to_embed text_indices
        (range_from fuel i (length texts_to_embed) n) embeddings (svc, b)
      = (Ok (fill embeddings
               (zip (drop i text_indices) (map f (drop i texts_to_embed)))), st').
Proof.
  intros Hn Hlen Hbound fuel.
  induction fuel as [|fuel IH]; intros i es svc b Hes Hfuel.
  - exists (svc, b). cbn.
    rewrite (drop_ge texts_to_embed) by lia. cbn [map].
    rewrite zip_nil_r. reflexivity.
  - cbn [range_from].
    destruct (decide (i < length texts_to_embed)%nat) as [Hi|Hi].
    + cbn [Embeddings.embed_batches]. unfold bind at 1, client at 1, slice.
      pose proof (embed_documents_spec (take n (drop i texts_to_embed)) b) as Hcall.
      destruct (client_embed_documents (take n (drop i texts_to_embed)) b)
        as [r b1]. cbn [fst] in Hcall. subst r.
      destruct (store_batch_writes texts text_indices i Hbound
                  (map f (take n (drop i texts_to_embed))) 0 es svc b1 Hes)
        as (svc1 & Hstore & _ & _).
      { rewrite length_map, length_take, length_drop. lia. }
      unfold bind at 1. rewrite Hstore.
      destruct (IH (i + n)%nat
                  (fill es (zip (drop (i + 0) text_indices)
                              (map f (take n (drop i texts_to_embed)))))
                  svc1 b1) as (st' & Hrest).
      { rewrite fill_length. exact Hes. }
      { lia. }
      exists st'. rewrite Hrest. f_equal. f_equal.
      rewrite (fill_zip_split n (drop i text_indices)
                 (map f (drop i texts_to_embed)) es).
      rewrite firstn_map, skipn_map, !drop_drop.
      replace (i + 0)%nat with i by lia. reflexivity.
    + exists (svc, b). cbn.
      rewrite (drop_ge texts_to_embed) by lia. cbn [map].
      rewrite zip_nil_r. reflexivity.
Qed.

(** The vector [embed_text] returns. *)
Lemma embed_text_value text svc (b : B) :
  fst (embed_text text (svc, b)) = Ok (cached_or_fresh key f svc text).
Proof.
  unfold Embeddings.embed_text, cached_or_fresh, bind, self, client,
    cache_store, modify, ret. cbn [fst].
  destruct (if use_cache svc then cache svc !! key text else None);
    [reflexivity|].
  pose proof (embed_query_spec text b) as Hcall.
  destruct (embed_query text b) as [r b1]. cbn [fst] in Hcall. subst r.
  destruct (use_cache svc); reflexivity.
Qed.

(** What [embed_texts] returns. *)
Lemma embed_texts_value texts svc (b : B) :
  0 < batch_size svc ->
  exists st',
    embed_texts texts (svc, b)
    = (Ok (map (fun text => Some (cached_or_fresh key f svc text)) texts), st').
Proof.
  intros Hsize.
  unfold Embeddings.embed_texts, bind at 1, self at 1. cbn [fst].
  set (c := if use_cache svc then cache svc else ∅).
  assert (Hscan : (if use_cache svc then check_cache (cache svc) 0 texts
                   else (replicate (length texts) None, texts,
                         seq 0 (length texts)))
                  = check_cache c 0 texts).
  { subst c. destruct (use_cache svc); [reflexivity|].
    symmetry. apply check_cache_empty. }
  rewrite Hscan. clear Hscan.
  assert (Hval : forall text,
             match c !! key text with Some cached => cached | None => f text end
             = cached_or_fresh key f svc text).
  { intros text. subst c. unfold cached_or_fresh.
    destruct (use_cache svc); [reflexivity|]. by rewrite lookup_empty. }
  destruct (check_cache c 0 texts) as [[es ts] ns] eqn:Hrun.
  destruct (check_cache_shape _ _ _ _ _ _ Hrun) as (Hes & Hns & Hbound).
  pose proof (check_cache_fill c 0 texts [] es ts ns Hrun eq_refl) as Hfill.
  cbn [app] in Hfill.
  assert (Hgoal : fill es (zip ns (map f ts))
                  = map (fun text => Some (cached_or_fresh key f svc text)) texts).
  { rewrite Hfill. apply map_ext. intros text. by rewrite Hval. }
  destruct ts as [|t ts'].
  - exists (svc, b). cbn [map] in Hgoal. rewrite zip_nil_r in Hgoal.
    cbn in Hgoal. rewrite <- Hgoal. reflexivity.
  - unfold bind at 1, lift at 1, range_step.
    destruct (Z.eqb_spec (batch_size svc) 0) as [|_]; [lia|].
    destruct (Z.ltb_spec (batch_size svc) 0) as [|_]; [lia|].
    destruct (embed_batches_writes (Z.to_nat (batch_size svc)) texts
                (t :: ts') ns ltac:(lia) Hns Hbound
                (length (t :: ts')) 0%nat es svc b Hes ltac:(lia))
      as (st' & Hbatches).
    exists st'. rewrite Hbatches, !drop_0, Hgoal. reflexivity.
Qed.

(** C3: when the client maps each text to its vector, one vector per
    text and in order, and the batch size is positive, [embed_texts]
    returns one vector per text, and its [i]-th vector is the one
    [embed_text] returns for the [i]-th text in the same cache,
    whatever the texts, the cache and the batch size are. *)
Theorem embed_texts_agrees_with_embed_text
    (texts : list string) (svc : Service Vec) (b : B) :
  0 < batch_size svc ->
  exists embeddings st',
    embed_texts texts (svc, b) = (Ok embeddings, st') /\
    length embeddings = length texts /\
    forall i text, texts !! i = Some text ->
      exists v, embeddings !! i = Some (Some v) /\
                fst (embed_text text (svc, b)) = Ok v.
Proof.
  intros Hsize.
  destruct (embed_texts_value texts svc b Hsize) as (st' & Hrun).
  eexists _, st'. split; [exact Hrun|]. split; [apply length_map|].
  intros i text Hi. exists (cached_or_fresh key f svc text). split.
  - rewrite lookup_map, Hi. reflexivity.
  - apply embed_text_value.
Qed.

(** On such a client [embed_documents] returns. *)
Lemma embed_documents_returns (documents : list Document) svc (b : B) :
  0 < batch_size svc ->
  exists vectors st',
    Embeddings.embed_documents key client_embed_documents documents (svc, b)
    = (Ok vectors, st').
Proof.
  intros Hsize.
  destruct (embed_texts_value (map page_content documents) svc b Hsize)
    as (st' & Hrun).
  unfold Embeddings.embed_documents, bind. rewrite Hrun. unfold ret. eauto.
Qed.

End Deterministic.

End Batching.


(** The batch theorem on a cache that holds one of five texts, the four
    misses going to the client in two batches of two. *)
Lemma embed_texts_agrees_with_embed_text_witness :
  0 < batch_size Scripted.warm_service /\
  exists embeddings st',
    embed_texts Scripted.identity_key Scripted.length_embed_documents
      Scripted.mixed_texts (Scripted.warm_service, tt) = (Ok embeddings, st') /\
    length embeddings = length Scripted.mixed_texts /\
    forall i text, Scripted.mixed_texts !! i = Some text ->
      exists v, embeddings !! i = Some (Some v) /\
                fst (embed_text Scripted.identity_key Scripted.length_embed_query
                       text (Scripted.warm_service, tt)) = Ok v.
Proof.
  assert (Hsize : 0 < batch_size Scripted.warm_service) by reflexivity.
  split; [exact Hsize|].
  apply (embed_texts_agrees_with_embed_text Scripted.identity_key
           Scripted.length_embed_query Scripted.length_embed_documents
           String.length).
  - intros text b. reflexivity.
  - intros texts b. reflexivity.
  - exact Hsize.
Defined.

(** The vectors of the five texts: the cached one for "budget", fresh
    ones elsewhere. *)
Example embed_texts_mixed :
  fst (embed_texts Scripted.identity_key Scripted.length_embed_documents
         Scripted.mixed_texts (Scripted.warm_service, tt))
  = Ok [Some 600%nat; Some 4%nat; Some 10%nat; Some 4%nat; Some 7%nat].
Proof. vm_compute; reflexivity. Qed.

(** *** Vectors prepared for the index *)

Lemma str_take_split (n : nat) (s : string) :
  exists rest, s = str_take n s +:+ rest /\
               String.length rest = (String.length s - n)%nat.
Proof.
  revert s. induction n as [|n IH]; intros s.
  - exists s. split; [reflexivity|]. cbn. lia.
  - destruct s as [|c s]; [exists ""; split; reflexivity|].
    destruct (IH s) as (rest & Hs & Hlen).
    exists rest. split; [|exact Hlen].
    change (String c s = String c (str_take n s +:+ rest)). f_equal. exact Hs.
Qed.

Lemma str_take_length (n : nat) (s : string) :
  String.length (str_take n s) = Nat.min n (String.length s).
Proof.
  revert s. induction n as [|n IH]; intros s; [reflexivity|].
  destruct s as [|c s]; [reflexivity|]. cbn. rewrite IH. reflexivity.
Qed.

Section Documents.

Context {Vec B : Type}.
Variable key : string -> string.
Variable client_embed_documents : list string -> M B (list Vec).

Local Abbreviation store_batch := (store_batch (Vec:=Vec) (B:=B) key).
Local Abbreviation embed_batches := (embed_batches key client_embed_documents).
Local Abbreviation embed_texts := (embed_texts key client_embed_documents).
Local Abbreviation embed_documents := (embed_documents key client_embed_documents).

Lemma store_batch_length texts text_indices i vs :
  forall j embeddings st embeddings' st',
    store_batch texts text_indices i j vs embeddings st = (Ok embeddings', st') ->
    length embeddings' = length embeddings.
Proof.
  induction vs as [|v vs IH]; intros j es [svc b] es' st'; cbn [Embeddings.store_batch].
  - by intros [= <- <-].
  - unfold bind at 1, lift at 1.
    destruct (getitem text_indices (i + j)) as [idx|e]; [|discriminate].
    unfold bind at 1, lift at 1, setitem.
    destruct (decide (idx < length es)%nat); [|discriminate].
    unfold bind at 1, self at 1. cbn [fst]. unfold bind at 1.
    destruct ((if use_cache svc
               then text <~ lift (getitem texts idx);;
                    cache_store (key text) v
               else ret ()) (svc, b)) as [[[]|e] st1]; [|discriminate].
    intros Hrest. rewrite (IH _ _ _ _ _ Hrest). apply length_insert.
Qed.

Lemma embed_batches_length n texts texts_to_embed text_indices offsets :
  forall embeddings st embeddings' st',
    embed_batches n texts texts_to_embed text_indices offsets embeddings st
    = (Ok embeddings', st') ->
    length embeddings' = length embeddings.
Proof.
  induction offsets as [|i offsets IH]; intros es [svc b] es' st';
    cbn [Embeddings.embed_batches].
  - by intros [= <- <-].
  - unfold bind at 1, client at 1.
    destruct (client_embed_documents _ b) as [[vs|e] b1]; [|discriminate].
    unfold bind at 1.
    destruct (store_batch texts text_indices i 0 vs es (svc, b1))
      as [[es1|e] st1] eqn:Hstore; [|discriminate].
    intros Hrest. rewrite (IH _ _ _ _ Hrest).
    exact (store_batch_length _ _ _ _ _ _ _ _ _ Hstore).
Qed.

(** [embed_texts] returns one slot per text. *)
Lemma embed_texts_length texts st embeddings st' :
  embed_texts texts st = (Ok embeddings, st') ->
  length embeddings = length texts.
Proof.
  destruct st as [svc b].
  unfold Embeddings.embed_texts, bind at 1, self at 1. cbn [fst].
  assert (Hshape : forall es ts ns,
             (if use_cache svc then check_cache key (cache svc) 0 texts
              else (replicate (length texts) None, texts, seq 0 (length texts)))
             = (es, ts, ns) -> length es = length texts).
  { intros es ts ns. destruct (use_cache svc).
    - intros Hrun. by destruct (check_cache_shape _ _ _ _ _ _ _ Hrun).
    - intros [= <- <- <-]. apply length_replicate. }
  destruct (if use_cache svc then check_cache key (cache svc) 0 texts
            else (replicate (length texts) None, texts, seq 0 (length texts)))
    as [[es ts] ns].
  specialize (Hshape es ts ns eq_refl).
  destruct ts as [|t ts'].
  - by intros [= <- <-].
  - unfold bind at 1, lift at 1.
    destruct (range_step _ _) as [offsets|e]; [|discriminate].
    intros Hrun. rewrite (embed_batches_length _ _ _ _ _ _ _ _ _ Hrun).
    exact Hshape.
Qed.


End Documents.


End EmbeddingsProps.

(** ** More on the embedding service *)

Module EmbeddingsMore.
Import Embeddings EmbeddingsSpec.

(** *** Slices *)

Lemma zip_nil_right {A C} (xs : list A) : zip xs (@nil C) = [].
Proof. destruct xs; reflexivity. Qed.

Lemma zip_split {A C} (n : nat) (xs : list A) (ys : list C) :
  zip xs ys = zip xs (take n ys) ++ zip (drop n xs) (drop n ys).
Proof.
  revert xs ys. induction n as [|n IH]; intros xs ys.
  - rewrite take_0, !drop_0, zip_nil_right. reflexivity.
  - destruct xs as [|x xs]; [reflexivity|].
    destruct ys as [|y ys].
    { change (take (S n) (@nil C)) with (@nil C).
      change (drop (S n) (@nil C)) with (@nil C).
      rewrite !zip_nil_right. reflexivity. }
    rewrite firstn_cons, !skipn_cons.
    change (zip (x :: xs) (y :: ys)) with ((x, y) :: zip xs ys).
    change (zip (x :: xs) (y :: take n ys)) with ((x, y) :: zip xs (take n ys)).
    rewrite (IH xs ys) at 1. reflexivity.
Qed.

Lemma zip_map_pair {A C} (g : A -> C) (xs : list A) :
  zip xs (map g xs) = map (fun x => (x, g x)) xs.
Proof. induction xs as [|x xs IH]; [reflexivity|]. cbn. by rewrite IH. Qed.

Lemma fill_app_zip {Vec} (n : nat) (idxs : list nat) (vs : list Vec)
    (embeddings : list (option Vec)) :
  fill embeddings (zip idxs (take n vs) ++ zip (drop n idxs) (drop n vs))
  = fill (fill embeddings (zip idxs (take n vs))) (zip (drop n idxs) (drop n vs)).
Proof. unfold fill. apply foldl_app. Qed.

(** The slices taken at the offsets of [range] cover the list, in
    order. *)
Lemma slices_cover {A} (n : nat) (l : list A) :
  (0 < n)%nat ->
  forall fuel i, (length l - i <= fuel)%nat ->
    concat (map (fun i => slice i n l) (range_from fuel i (length l) n))
    = drop i l.
Proof.
  intros Hn fuel. induction fuel as [|fuel IH]; intros i Hfuel.
  - cbn. rewrite drop_ge by lia. reflexivity.
  - cbn [range_from]. destruct (decide (i < length l)%nat) as [Hi|Hi].
    + cbn [map concat]. rewrite IH by lia. unfold slice.
      rewrite <- (take_drop n (drop i l)) at 2. rewrite drop_drop. reflexivity.
    + cbn. rewrite drop_ge by lia. reflexivity.
Qed.

Lemma slices_sized {A} (n : nat) (l : list A) :
  (0 < n)%nat ->
  forall fuel i,
    Forall (fun batch : list A => (0 < length batch <= n)%nat)
      (map (fun i => slice i n l) (range_from fuel i (length l) n)).
Proof.
  intros Hn fuel. induction fuel as [|fuel IH]; intros i; [constructor|].
  cbn [range_from]. destruct (decide (i < length l)%nat) as [Hi|Hi]; [|constructor].
  cbn [map]. constructor; [|apply IH].
  unfold slice. rewrite length_take, length_drop. lia.
Qed.

Lemma batches_of_cover {A} (n : nat) (l : list A) :
  (0 < n)%nat -> concat (batches_of n l) = l.
Proof.
  intros Hn. unfold batches_of. rewrite slices_cover by lia. apply drop_0.
Qed.

Lemma slices_cover_all {A} (n : nat) (l : list A) :
  (0 < n)%nat ->
  concat (map (fun i => slice i n l) (range_from (length l) 0 (length l) n)) = l.
Proof. intros Hn. rewrite slices_cover by lia. apply drop_0. Qed.

(** *** The cache *)

Lemma set_cache_id {Vec} (svc : Service Vec) :
  set_cache (fun c => c) svc = svc.
Proof. by destruct svc. Qed.

Lemma cache_after_cons {Vec} key (c : gmap string Vec) text v writes :
  cache_after key c ((text, v) :: writes)
  = cache_after key (<[key text := v]> c) writes.
Proof. reflexivity. Qed.

Lemma cache_after_app {Vec} key (c : gmap string Vec) ws1 ws2 :
  cache_after key c (ws1 ++ ws2) = cache_after key (cache_after key c ws1) ws2.
Proof. unfold cache_after. apply foldl_app. Qed.

(** Writing entries never removes one. *)
Lemma cache_after_keeps {Vec} key writes (c : gmap string Vec) k :
  is_Some (c !! k) -> is_Some (cache_after key c writes !! k).
Proof.
  revert c. induction writes as [|[text v] writes IH]; intros c Hk; [exact Hk|].
  rewrite cache_after_cons. apply IH.
  destruct (decide (key text = k)) as [<-|Hne].
  - rewrite lookup_insert_eq. eauto.
  - by rewrite lookup_insert_ne.
Qed.

Lemma cache_after_holds {Vec} key (g : string -> Vec) texts (c : gmap string Vec) text :
  text ∈ texts ->
  is_Some (cache_after key c (map (fun t => (t, g t)) texts) !! key text).
Proof.
  revert c. induction texts as [|t texts IH]; intros c Hin.
  - by apply elem_of_nil in Hin.
  - cbn [map]. rewrite cache_after_cons.
    apply elem_of_cons in Hin as [->|Hin]; [|by apply IH].
    apply cache_after_keeps. rewrite lookup_insert_eq. eauto.
Qed.

Lemma uncached_or_cached {Vec} key (c : gmap string Vec) texts text :
  text ∈ texts -> is_Some (c !! key text) \/ text ∈ uncached key c texts.
Proof.
  induction texts as [|t texts IH]; intros Hin.
  - by apply elem_of_nil in Hin.
  - cbn. apply elem_of_cons in Hin as [->|Hin].
    + destruct (c !! key t) eqn:Ht; [left; eauto|].
      right. apply elem_of_cons. by left.
    + destruct (IH Hin) as [Hc|Hu]; [by left|]. right.
      destruct (c !! key t); [exact Hu|]. apply elem_of_cons. by right.
Qed.

Lemma uncached_empty {Vec} key texts : uncached key (∅ : gmap string Vec) texts = texts.
Proof.
  induction texts as [|t texts IH]; [reflexivity|].
  cbn. rewrite lookup_empty, IH. reflexivity.
Qed.

Section Effects.

Context {Vec B : Type}.
Variable key : string -> string.
Variable embed_query : string -> M B Vec.
Variable client_embed_documents : list string -> M B (list Vec).

Local Abbreviation embed_text := (embed_text key embed_query).
Local Abbreviation check_cache := (check_cache (Vec:=Vec) key).
Local Abbreviation store_batch := (store_batch (Vec:=Vec) (B:=B) key).
Local Abbreviation embed_batches := (embed_batches key client_embed_documents).
Local Abbreviation embed_texts := (embed_texts key client_embed_documents).

(** The first loop: slots, misses and their positions. *)
Lemma check_cache_result c i texts embeddings todo text_indices :
  check_cache c i texts = (embeddings, todo, text_indices) ->
  embeddings = map (fun text => c !! key text) texts /\
  todo = uncached key c texts /\
  forall k idx, text_indices !! k = Some idx ->
    (i <= idx)%nat /\ texts !! (idx - i)%nat = todo !! k.
Proof.
  revert i embeddings todo text_indices.
  induction texts as [|text rest IH]; intros i es ts ns; cbn.
  - intros [= <- <- <-]. split; [reflexivity|]. split; [reflexivity|].
    intros k idx Hk. discriminate.
  - destruct (check_cache c (S i) rest) as [[es' ts'] ns'] eqn:Hrest.
    destruct (IH _ _ _ _ Hrest) as (-> & -> & Hidx).
    destruct (c !! key text) as [cached|] eqn:Hc; intros [= <- <- <-].
    + split; [reflexivity|]. split; [reflexivity|].
      intros k idx Hk. destruct (Hidx k idx Hk) as [Hle Hat]. split; [lia|].
      replace (idx - i)%nat with (S (idx - S i)) by lia. exact Hat.
    + split; [reflexivity|]. split; [reflexivity|].
      intros [|k] idx Hk.
      * injection Hk as <-. split; [lia|].
        replace (i - i)%nat with 0%nat by lia. reflexivity.
      * destruct (Hidx k idx Hk) as [Hle Hat]. split; [lia|].
        replace (idx - i)%nat with (S (idx - S i)) by lia. exact Hat.
Qed.

(** A cache hit: no call to the client, the service as it was. *)
Lemma embed_text_hit text svc (b : B) cached :
  use_cache svc = true ->
  cache svc !! key text = Some cached ->
  embed_text text (svc, b) = (Ok cached, (svc, b)).
Proof.
  intros Hon Hhit. unfold Embeddings.embed_text, bind, self. cbn [fst].
  rewrite Hon, Hhit. reflexivity.
Qed.

(** X1: with the cache on, once [embed_text] has returned a vector for a
    text, a later call for that text (or any text with the same cache
    key) returns the same vector without calling the client, and changes
    nothing. *)
Theorem embed_text_again_is_served_from_cache
    (text text' : string) (svc svc1 : Service Vec) (b b1 b2 : B) (v : Vec) :
  use_cache svc = true ->
  embed_text text (svc, b) = (Ok v, (svc1, b1)) ->
  key text' = key text ->
  embed_text text' (svc1, b2) = (Ok v, (svc1, b2)).
Proof.
  intros Hon Hrun Hkey.
  unfold Embeddings.embed_text, bind, self, client, cache_store, modify, ret in Hrun.
  cbn [fst] in Hrun. rewrite Hon in Hrun.
  destruct (cache svc !! key text) as [cached|] eqn:Hc.
  - injection Hrun as <- <- <-. apply embed_text_hit; [exact Hon|].
    by rewrite Hkey.
  - destruct (embed_query text b) as [[v0|e] b0]; [|discriminate].
    injection Hrun as <- <- <-. apply embed_text_hit; [exact Hon|].
    rewrite Hkey. cbn. apply lookup_insert_eq.
Qed.

Lemma check_cache_all_cached c i texts :
  Forall (fun text => is_Some (c !! key text)) texts ->
  check_cache c i texts = (map (fun text => c !! key text) texts, [], []).
Proof.
  intros Hall. revert i. induction Hall as [|text rest [v Hv] _ IH]; intros i.
  - reflexivity.
  - cbn. rewrite IH, Hv. reflexivity.
Qed.

(** A batch without a miss skips the second loop. *)
Lemma embed_texts_cached (texts : list string) (svc : Service Vec) (b : B) :
  use_cache svc = true ->
  Forall (fun text => is_Some (cache svc !! key text)) texts ->
  embed_texts texts (svc, b)
  = (Ok (map (fun text => cache svc !! key text) texts), (svc, b)).
Proof.
  intros Hon Hall. unfold Embeddings.embed_texts, bind at 1, self at 1.
  cbn [fst]. rewrite Hon, (check_cache_all_cached _ 0 _ Hall). reflexivity.
Qed.

(** X2: when every text of the batch has an entry in the cache,
    [embed_texts] returns the cached vectors without calling the client
    and changes nothing, whatever the batch size is, zero and negative
    sizes included. *)
Theorem embed_texts_all_cached
    (texts : list string) (svc : Service Vec) (b : B) :
  use_cache svc = true ->
  Forall (fun text => is_Some (cache svc !! key text)) texts ->
  embed_texts texts (svc, b)
  = (Ok (map (fun text => cache svc !! key text) texts), (svc, b)).
Proof. exact (embed_texts_cached texts svc b). Qed.

(** The slots the first loop leaves. *)
Lemma first_loop svc texts :
  (if use_cache svc then check_cache (cache svc) 0 texts
   else (replicate (length texts) None, texts, seq 0 (length texts)))
  = check_cache (if use_cache svc then cache svc else ∅) 0 texts.
Proof.
  destruct (use_cache svc); [reflexivity|].
  generalize 0%nat. induction texts as [|t texts IH]; intros i; [reflexivity|].
  cbn. rewrite <- IH, lookup_empty. reflexivity.
Qed.

(** [embed_texts], its two loops apart. *)
Lemma embed_texts_loops texts svc (b : B) :
  embed_texts texts (svc, b)
  = match check_cache (if use_cache svc then cache svc else ∅) 0 texts with
    | (embeddings, [], _) => (Ok embeddings, (svc, b))
    | (embeddings, todo, text_indices) =>
        match range_step (length todo) (batch_size svc) with
        | Ok offsets =>
            embed_batches (Z.to_nat (batch_size svc)) texts todo text_indices
              offsets embeddings (svc, b)
        | Raise e => (Raise e, (svc, b))
        end
    end.
Proof.
  unfold Embeddings.embed_texts, bind at 1, self at 1. cbn [fst].
  rewrite first_loop.
  destruct (check_cache _ 0 texts) as [[es [|t ts]] ns]; [reflexivity|].
  unfold bind, lift. destruct (range_step _ _); reflexivity.
Qed.

(** X3: a batch size that is not positive never reaches the client.
    With a zero batch size [embed_texts] raises ValueError as soon as
    one text is to be embedded; with a negative one it returns, and the
    slot of every text to embed is left [None]. *)
Theorem embed_texts_without_positive_batch_size
    (texts : list string) (svc : Service Vec) (b : B) :
  let c := if use_cache svc then cache svc else ∅ in
  (batch_size svc < 0 ->
   embed_texts texts (svc, b)
   = (Ok (map (fun text => c !! key text) texts), (svc, b))) /\
  (batch_size svc = 0 -> uncached key c texts <> [] ->
   embed_texts texts (svc, b)
   = (Raise (ValueError "range() arg 3 must not be zero"), (svc, b))).
Proof.
  intros c. rewrite embed_texts_loops. fold c.
  destruct (check_cache c 0 texts) as [[es ts] ns] eqn:Hrun.
  destruct (check_cache_result _ _ _ _ _ _ Hrun) as (-> & -> & _).
  unfold range_step. split.
  - intros Hneg. destruct (uncached key c texts) as [|t ts]; [reflexivity|].
    destruct (Z.eqb_spec (batch_size svc) 0); [lia|].
    destruct (Z.ltb_spec (batch_size svc) 0); [|lia]. reflexivity.
  - intros Hzero Hsome. destruct (uncached key c texts) as [|t ts]; [done|].
    rewrite Hzero. reflexivity.
Qed.

(** The inner loop on a service, whatever the client returned. *)
Lemma store_batch_without_cache texts text_indices i vs :
  forall j embeddings svc (b : B),
    use_cache svc = false ->
    snd (store_batch texts text_indices i j vs embeddings (svc, b)) = (svc, b).
Proof.
  induction vs as [|v vs IH]; intros j es svc b Hoff; [reflexivity|].
  cbn [Embeddings.store_batch]. unfold bind at 1, lift at 1.
  destruct (getitem text_indices (i + j)) as [idx|e]; [|reflexivity].
  unfold bind at 1, lift at 1.
  destruct (setitem es idx (Some v)) as [es'|e]; [|reflexivity].
  unfold bind at 1, self at 1. cbn [fst]. rewrite Hoff.
  unfold bind at 1, ret at 1. apply IH. exact Hoff.
Qed.

Lemma embed_batches_without_cache n texts todo text_indices offsets :
  forall embeddings svc (b : B),
    use_cache svc = false ->
    fst (snd (embed_batches n texts todo text_indices offsets embeddings (svc, b)))
    = svc.
Proof.
  induction offsets as [|i offsets IH]; intros es svc b Hoff; [reflexivity|].
  cbn [Embeddings.embed_batches]. unfold bind at 1, client at 1.
  destruct (client_embed_documents (slice i n todo) b) as [[vs|e] b1];
    [|reflexivity].
  unfold bind at 1.
  pose proof (store_batch_without_cache texts text_indices i vs 0 es svc b1 Hoff)
    as Hstore.
  destruct (store_batch texts text_indices i 0 vs es (svc, b1)) as [[es'|e] st1].
  - cbn [snd] in Hstore. subst st1. apply IH. exact Hoff.
  - cbn [snd] in Hstore. subst st1. reflexivity.
Qed.

(** X4: with the cache off, [embed_text] and [embed_texts] never write
    the service, whether the client answers or raises. *)
Theorem no_cache_no_write
    (text : string) (texts : list string) (svc : Service Vec) (b : B) :
  use_cache svc = false ->
  fst (snd (embed_text text (svc, b))) = svc /\
  fst (snd (embed_texts texts (svc, b))) = svc.
Proof.
  intros Hoff. split.
  - unfold Embeddings.embed_text, bind, self, client, ret. cbn [fst].
    rewrite Hoff. destruct (embed_query text b) as [[v|e] b1]; reflexivity.
  - unfold Embeddings.embed_texts, bind at 1, self at 1. cbn [fst].
    rewrite Hoff. destruct texts as [|t texts]; [reflexivity|].
    unfold bind at 1, lift at 1.
    destruct (range_step _ _) as [offsets|e]; [|reflexivity].
    apply embed_batches_without_cache. exact Hoff.
Qed.

End Effects.

Section Deterministic.

Context {Vec B : Type}.
Variable key : string -> string.
Variable client_embed_documents : list string -> M B (list Vec).
(** The client answers a batch with one vector per text, [f text], in
    order. *)
Variable f : string -> Vec.
Hypothesis embed_documents_spec :
  forall texts b, fst (client_embed_documents texts b) = Ok (map f texts).

Local Abbreviation check_cache := (check_cache (Vec:=Vec) key).
Local Abbreviation store_batch := (store_batch (Vec:=Vec) (B:=B) key).
Local Abbreviation embed_batches := (embed_batches key client_embed_documents).
Local Abbreviation embed_texts := (embed_texts key client_embed_documents).

Local Abbreviation stored := (stored (Vec:=Vec) key).

Lemma stored_nil svc : stored svc [] = svc.
Proof.
  unfold EmbeddingsSpec.stored.
  destruct (use_cache svc); [apply set_cache_id|reflexivity].
Qed.

Lemma stored_cons svc text v writes :
  stored svc ((text, v) :: writes)
  = stored (if use_cache svc then set_cache (insert (key text) v) svc else svc) writes.
Proof.
  unfold EmbeddingsSpec.stored. destruct (use_cache svc) eqn:Hc.
  - unfold set_cache. cbn. rewrite Hc. reflexivity.
  - rewrite Hc. reflexivity.
Qed.

Lemma stored_app svc ws1 ws2 :
  stored svc (ws1 ++ ws2) = stored (stored svc ws1) ws2.
Proof.
  unfold EmbeddingsSpec.stored. destruct (use_cache svc) eqn:Hc.
  - unfold set_cache. cbn. rewrite Hc, cache_after_app. reflexivity.
  - rewrite Hc. reflexivity.
Qed.

(** The inner loop, exactly. *)
Lemma store_batch_effect texts todo text_indices i :
  Forall (fun idx => (idx < length texts)%nat) text_indices ->
  (forall k idx, text_indices !! k = Some idx -> texts !! idx = todo !! k) ->
  forall vs j embeddings svc (b : B),
    length embeddings = length texts ->
    (i + j + length vs <= length text_indices)%nat ->
    store_batch texts text_indices i j vs embeddings (svc, b)
    = (Ok (fill embeddings (zip (drop (i + j) text_indices) vs)),
       (stored svc (zip (drop (i + j) todo) vs), b)).
Proof.
  intros Hbound Hat vs. induction vs as [|v vs IH]; intros j es svc b Hes Hfit.
  - rewrite !zip_nil_right, stored_nil. reflexivity.
  - cbn [length] in Hfit.
    destruct (lookup_lt_is_Some_2 text_indices (i + j)) as [idx Hidx]; [lia|].
    assert (Hlt : (idx < length texts)%nat).
    { rewrite Forall_forall in Hbound. apply Hbound.
      eapply list_elem_of_lookup_2. exact Hidx. }
    destruct (lookup_lt_is_Some_2 texts idx Hlt) as [text Htext].
    assert (Htodo : todo !! (i + j)%nat = Some text)
      by (rewrite <- (Hat _ _ Hidx); exact Htext).
    rewrite (drop_S _ _ _ Hidx), (drop_S _ _ _ Htodo).
    change (zip (idx :: drop (S (i + j)) text_indices) (v :: vs))
      with ((idx, v) :: zip (drop (S (i + j)) text_indices) vs).
    change (zip (text :: drop (S (i + j)) todo) (v :: vs))
      with ((text, v) :: zip (drop (S (i + j)) todo) vs).
    rewrite EmbeddingsProps.fill_cons, stored_cons.
    cbn [Embeddings.store_batch].
    unfold bind at 1, lift at 1, getitem at 1. rewrite Hidx.
    unfold bind at 1, lift at 1, setitem at 1.
    destruct (decide (idx < length es)%nat) as [_|Hno]; [|lia].
    unfold bind at 1, self at 1. cbn [fst].
    replace (S (i + j)) with (i + S j)%nat by lia.
    destruct (use_cache svc) eqn:Hcache.
    + unfold bind at 1. unfold bind at 1, lift at 1, getitem at 1.
      rewrite Htext. unfold cache_store, modify.
      apply IH; [by rewrite length_insert|lia].
    + unfold bind at 1, ret at 1.
      apply IH; [by rewrite length_insert|lia].
Qed.

(** The outer loop, exactly: the slots, the cache and the client. *)
Lemma embed_batches_effect n texts todo text_indices :
  (0 < n)%nat ->
  length text_indices = length todo ->
  Forall (fun idx => (idx < length texts)%nat) text_indices ->
  (forall k idx, text_indices !! k = Some idx -> texts !! idx = todo !! k) ->
  forall fuel i embeddings svc (b : B),
    length embeddings = length texts ->
    (length todo - i <= fuel)%nat ->
    embed_batches n texts todo text_indices
      (range_from fuel i (length todo) n) embeddings (svc, b)
    = (Ok (fill embeddings (zip (drop i text_indices) (map f (drop i todo)))),
       (stored svc (zip (drop i todo) (map f (drop i todo))),
        client_after client_embed_documents b
          (map (fun i => slice i n todo) (range_from fuel i (length todo) n)))).
Proof.
  intros Hn Hlen Hbound Hat fuel.
  induction fuel as [|fuel IH]; intros i es svc b Hes Hfuel.
  - cbn. rewrite (drop_ge todo) by lia. cbn [map].
    rewrite !zip_nil_right, stored_nil. reflexivity.
  - cbn [range_from].
    destruct (decide (i < length todo)%nat) as [Hi|Hi].
    + cbn [Embeddings.embed_batches map]. unfold bind at 1, client at 1.
      unfold client_after. cbn [foldl]. fold (client_after client_embed_documents).
      unfold slice at 1 2.
      pose proof (embed_documents_spec (take n (drop i todo)) b) as Hcall.
      destruct (client_embed_documents (take n (drop i todo)) b) as [r b1].
      cbn [fst] in Hcall. subst r. cbn [snd].
      unfold bind at 1.
      rewrite (store_batch_effect texts todo text_indices i Hbound Hat
                 (map f (take n (drop i todo))) 0 es svc b1 Hes)
        by (rewrite length_map, length_take, length_drop; lia).
      rewrite IH by (rewrite ?EmbeddingsProps.fill_length; lia).
      replace (i + 0)%nat with i by lia.
      rewrite <- !drop_drop, <- firstn_map, <- !skipn_map.
      rewrite <- fill_app_zip, <- stored_app, <- !zip_split. reflexivity.
    + cbn. rewrite (drop_ge todo) by lia. cbn [map].
      rewrite !zip_nil_right, stored_nil. reflexivity.
Qed.

Lemma texts_to_embed_uncached (svc : Service Vec) texts :
  texts_to_embed key svc texts
  = uncached key (if use_cache svc then cache svc else ∅) texts.
Proof.
  unfold texts_to_embed. destruct (use_cache svc); [reflexivity|].
  symmetry. apply uncached_empty.
Qed.

(** [embed_texts], exactly: the vectors, the cache and the client. *)
Lemma embed_texts_effect texts svc (b : B) :
  0 < batch_size svc ->
  embed_texts texts (svc, b)
  = (Ok (map (fun text => Some (cached_or_fresh key f svc text)) texts),
     (stored svc (map (fun text => (text, f text)) (texts_to_embed key svc texts)),
      client_after client_embed_documents b
        (batches_of (Z.to_nat (batch_size svc)) (texts_to_embed key svc texts)))).
Proof.
  intros Hsize. rewrite embed_texts_loops, texts_to_embed_uncached.
  set (c := if use_cache svc then cache svc else ∅).
  assert (Hval : forall text,
             match c !! key text with Some cached => cached | None => f text end
             = cached_or_fresh key f svc text).
  { intros text. subst c. unfold cached_or_fresh.
    destruct (use_cache svc); [reflexivity|]. by rewrite lookup_empty. }
  destruct (check_cache c 0 texts) as [[es ts] ns] eqn:Hrun.
  destruct (EmbeddingsProps.check_cache_shape _ _ _ _ _ _ _ Hrun)
    as (Hes & Hns & Hbound).
  destruct (check_cache_result _ _ _ _ _ _ _ Hrun) as (_ & Hts & Hat).
  assert (Hat' : forall k idx, ns !! k = Some idx -> texts !! idx = ts !! k).
  { intros k idx Hk. destruct (Hat k idx Hk) as [_ Heq].
    by rewrite Nat.sub_0_r in Heq. }
  pose proof (EmbeddingsProps.check_cache_fill key f c 0 texts [] es ts ns
                Hrun eq_refl) as Hfill.
  cbn [app] in Hfill.
  assert (Hgoal : fill es (zip ns (map f ts))
                  = map (fun text => Some (cached_or_fresh key f svc text)) texts).
  { rewrite Hfill. apply map_ext. intros text. by rewrite Hval. }
  rewrite <- Hts. clear Hts Hat.
  destruct ts as [|t ts'].
  - cbn [map] in Hgoal. rewrite zip_nil_right in Hgoal. cbn in Hgoal.
    rewrite <- Hgoal, stored_nil. reflexivity.
  - unfold range_step.
    destruct (Z.eqb_spec (batch_size svc) 0) as [|_]; [lia|].
    destruct (Z.ltb_spec (batch_size svc) 0) as [|_]; [lia|].
    rewrite (embed_batches_effect (Z.to_nat (batch_size svc)) texts (t :: ts') ns)
      by (try assumption; lia).
    rewrite !drop_0, Hgoal, zip_map_pair. reflexivity.
Qed.

Lemma uncached_is_miss (c : gmap string Vec) texts text :
  text ∈ uncached key c texts -> c !! key text = None /\ text ∈ texts.
Proof.
  induction texts as [|t texts IH]; cbn.
  - intros Hin. by apply elem_of_nil in Hin.
  - destruct (c !! key t) eqn:Ht.
    + intros Hin. destruct (IH Hin). split; [done|]. apply elem_of_cons. by right.
    + intros Hin. apply elem_of_cons in Hin as [->|Hin].
      * split; [done|]. apply elem_of_cons. by left.
      * destruct (IH Hin). split; [done|]. apply elem_of_cons. by right.
Qed.

(** With keys that tell the texts apart, the entry written for a text
    is its own vector. *)
Lemma cache_after_lookup texts (c : gmap string Vec) text :
  (forall t, t ∈ texts -> key t = key text -> t = text) ->
  (text ∈ texts ->
   cache_after key c (map (fun t => (t, f t)) texts) !! key text = Some (f text)) /\
  (text ∉ texts ->
   cache_after key c (map (fun t => (t, f t)) texts) !! key text = c !! key text).
Proof.
  revert c. induction texts as [|t texts IH]; intros c Hinj.
  - split; [intros Hin; by apply elem_of_nil in Hin|reflexivity].
  - cbn [map]. rewrite cache_after_cons.
    destruct (IH (<[key t := f t]> c)) as [Hin Hout].
    { intros t' Ht'. apply Hinj, elem_of_cons. by right. }
    destruct (decide (t = text)) as [->|Hne].
    + split; [|intros Hno; exfalso; apply Hno, elem_of_cons; by left].
      intros _. destruct (decide (text ∈ texts)) as [Hyes|Hno]; [by apply Hin|].
      rewrite (Hout Hno). apply lookup_insert_eq.
    + assert (Hk : key t <> key text).
      { intros Hk. apply Hne, Hinj; [apply elem_of_cons; by left|exact Hk]. }
      split.
      * intros Hyes. apply elem_of_cons in Hyes as [->|Hyes]; [done|by apply Hin].
      * intros Hno. rewrite Hout.
        -- by rewrite lookup_insert_ne.
        -- intros Hyes. apply Hno, elem_of_cons. by right.
Qed.

(** X5: with the cache on and a positive batch size, a batch repeated
    after it succeeded makes no call to the client and changes
    nothing; when no two texts of the batch share a cache key, it
    returns the vectors the first batch returned. *)
Theorem repeated_batch_is_served_from_cache
    (texts : list string) (svc : Service Vec) (b : B) :
  use_cache svc = true ->
  0 < batch_size svc ->
  exists embeddings svc' b',
    embed_texts texts (svc, b) = (Ok embeddings, (svc', b')) /\
    forall b2, exists again,
      embed_texts texts (svc', b2) = (Ok again, (svc', b2)) /\
      ((forall t1 t2, t1 ∈ texts -> t2 ∈ texts -> key t1 = key t2 -> t1 = t2) ->
       again = embeddings).
Proof.
  intros Hon Hsize. eexists _, _, _. split; [apply embed_texts_effect, Hsize|].
  intros b2.
  set (todo := texts_to_embed key svc texts).
  set (svc' := stored svc (map (fun text => (text, f text)) todo)).
  assert (Htodo : todo = uncached key (cache svc) texts)
    by (subst todo; unfold texts_to_embed; by rewrite Hon).
  assert (Hon' : use_cache svc' = true)
    by (subst svc'; unfold EmbeddingsSpec.stored; rewrite Hon; exact Hon).
  assert (Hcache : cache svc'
                   = cache_after key (cache svc) (map (fun t => (t, f t)) todo))
    by (subst svc'; unfold EmbeddingsSpec.stored; rewrite Hon; reflexivity).
  eexists. split.
  - apply embed_texts_cached; [exact Hon'|].
    apply Forall_forall. intros text Hin. rewrite Hcache.
    destruct (uncached_or_cached key (cache svc) texts text Hin) as [Hc|Hu].
    + by apply cache_after_keeps.
    + apply cache_after_holds. by rewrite Htodo.
  - intros Hinj. apply map_ext_in. intros text Hin%list_elem_of_In.
    rewrite Hcache. unfold cached_or_fresh. rewrite Hon.
    destruct (cache_after_lookup todo (cache svc) text) as [Hyes Hno].
    { intros t Ht Hk. rewrite Htodo in Ht.
      apply uncached_is_miss in Ht as [_ Ht]. by apply Hinj. }
    destruct (decide (text ∈ todo)) as [Hin'|Hout].
    + rewrite (Hyes Hin'). rewrite Htodo in Hin'.
      apply uncached_is_miss in Hin' as [-> _]. reflexivity.
    + rewrite (Hno Hout).
      destruct (uncached_or_cached key (cache svc) texts text Hin) as [[v Hv]|Hu].
      * by rewrite Hv.
      * by rewrite Htodo in Hout.
Qed.

End Deterministic.

Lemma logging_client_after (log : list (list string)) batches :
  client_after Recording.logging_embed_documents log batches = log ++ batches.
Proof.
  unfold client_after. revert log.
  induction batches as [|batch batches IH]; intros log; cbn [foldl].
  - by rewrite app_nil_r.
  - rewrite IH. unfold Recording.logging_embed_documents. cbn [snd].
    rewrite <- app_assoc. reflexivity.
Qed.

(** X6: with a positive batch size, the batches a logging client
    receives from [embed_texts] are, put end to end, exactly the texts
    to embed (the texts without a cache entry when the cache is on, all
    of them otherwise), in input order and repetitions included; no
    batch is empty or longer than the batch size. *)
Theorem embed_texts_sends_each_miss_once
    (key : string -> string) (texts : list string)
    (svc : Service nat) (log : list (list string)) :
  0 < batch_size svc ->
  exists embeddings svc' batches,
    embed_texts key Recording.logging_embed_documents texts (svc, log)
    = (Ok embeddings, (svc', log ++ batches)) /\
    concat batches = texts_to_embed key svc texts /\
    Forall (fun batch : list string =>
              (0 < length batch <= Z.to_nat (batch_size svc))%nat) batches.
Proof.
  intros Hsize. eexists _, _, _. split; [|split].
  - rewrite (embed_texts_effect key Recording.logging_embed_documents
               String.length (fun texts b => eq_refl) texts svc log Hsize).
    rewrite logging_client_after. reflexivity.
  - apply batches_of_cover. lia.
  - apply slices_sized. lia.
Qed.

Section Prepared.

Context {Vec B : Type}.
Variable key : string -> string.
Variable client_embed_documents : list string -> M B (list Vec).

Local Abbreviation embed_texts := (embed_texts key client_embed_documents).
Local Abbreviation embed_documents := (embed_documents key client_embed_documents).

(** X7: the [i]-th vector [embed_documents] prepares carries the
    [i]-th embedding, takes its id from the chunk's metadata 'id' or,
    failing that, is named doc_[i], and keeps every metadata entry of
    the chunk except 'text'. *)
Theorem embed_documents_keeps_ids_and_metadata
    (documents : list Document) (st st' : Service Vec * B)
    (vectors : list (Vector Vec)) :
  embed_documents documents st = (Ok vectors, st') ->
  exists embeddings,
    embed_texts (map page_content documents) st = (Ok embeddings, st') /\
    forall i doc, documents !! i = Some doc ->
      exists vec embedding,
        vectors !! i = Some vec /\
        embeddings !! i = Some embedding /\
        vec_values vec = embedding /\
        vec_id vec = match metadata doc !! "id" with
                     | Some id => id
                     | None => VStr ("doc_" +:+ pretty i)
                     end /\
        forall k, k <> "text" -> vec_metadata vec !! k = metadata doc !! k.
Proof.
  unfold Embeddings.embed_documents, bind.
  destruct (embed_texts (map page_content documents) st)
    as [[es|e] st1] eqn:Hrun; [|discriminate].
  unfold ret. intros [= <- <-]. exists es. split; [reflexivity|].
  pose proof (EmbeddingsProps.embed_texts_length _ _ _ _ _ _ Hrun) as Hes.
  rewrite length_map in Hes.
  intros i doc Hdoc.
  destruct (lookup_lt_is_Some_2 es i) as [emb Hemb].
  { rewrite Hes. eapply lookup_lt_Some. exact Hdoc. }
  exists (prepare_vector i doc emb), emb. split; [|split; [|split; [|split]]].
  - rewrite list_lookup_imap.
    assert (Hzip : zip documents es !! i = Some (doc, emb))
      by (apply lookup_zip_Some; split; assumption).
    rewrite Hzip. reflexivity.
  - exact Hemb.
  - reflexivity.
  - reflexivity.
  - intros k Hk. unfold prepare_vector. cbn [vec_metadata].
    by rewrite lookup_insert_ne.
Qed.

End Prepared.

(** *** The theorems above on concrete services *)

Lemma embed_text_again_is_served_from_cache_witness :
  embed_text Scripted.identity_key Scripted.length_embed_query "plan"
    (Cases.warmer_service, tt)
  = (Ok 4%nat, (Cases.warmer_service, tt)).
Proof.
  apply (embed_text_again_is_served_from_cache Scripted.identity_key
           Scripted.length_embed_query
           "plan" "plan" Scripted.warm_service Cases.warmer_service tt tt tt 4%nat).
  - reflexivity.
  - vm_compute; reflexivity.
  - reflexivity.
Defined.

Lemma embed_texts_all_cached_witness :
  embed_texts Scripted.identity_key Scripted.length_embed_documents
    ["budget"; "budget"] (Cases.stuck_service, tt)
  = (Ok [Some 600%nat; Some 600%nat], (Cases.stuck_service, tt)).
Proof.
  apply (embed_texts_all_cached Scripted.identity_key
           Scripted.length_embed_documents ["budget"; "budget"]
           Cases.stuck_service tt).
  - reflexivity.
  - repeat constructor; exists 600%nat; vm_compute; reflexivity.
Defined.

Lemma embed_texts_without_positive_batch_size_witness :
  embed_texts Scripted.identity_key Scripted.length_embed_documents
    Scripted.mixed_texts (Cases.backwards_service, tt)
  = (Ok [Some 600%nat; None; None; None; None], (Cases.backwards_service, tt)) /\
  embed_texts Scripted.identity_key Scripted.length_embed_documents
    Scripted.mixed_texts (Cases.stuck_service, tt)
  = (Raise (ValueError "range() arg 3 must not be zero"), (Cases.stuck_service, tt)).
Proof.
  split.
  - apply (proj1 (embed_texts_without_positive_batch_size Scripted.identity_key
                    Scripted.length_embed_documents Scripted.mixed_texts
                    Cases.backwards_service tt)).
    reflexivity.
  - apply (proj2 (embed_texts_without_positive_batch_size Scripted.identity_key
                    Scripted.length_embed_documents Scripted.mixed_texts
                    Cases.stuck_service tt)).
    + reflexivity.
    + vm_compute. discriminate.
Defined.

Lemma no_cache_no_write_witness :
  fst (snd (embed_text Scripted.identity_key Scripted.length_embed_query "plan"
              (Cases.plain_service, tt))) = Cases.plain_service /\
  fst (snd (embed_texts Scripted.identity_key Scripted.length_embed_documents
              Scripted.mixed_texts (Cases.plain_service, tt))) = Cases.plain_service.
Proof.
  apply (no_cache_no_write Scripted.identity_key Scripted.length_embed_query
           Scripted.length_embed_documents "plan" Scripted.mixed_texts
           Cases.plain_service tt).
  reflexivity.
Defined.

Lemma repeated_batch_is_served_from_cache_witness :
  exists embeddings svc' b',
    embed_texts Scripted.identity_key Scripted.length_embed_documents
      Scripted.mixed_texts (Scripted.warm_service, tt)
    = (Ok embeddings, (svc', b')) /\
    forall b2, exists again,
      embed_texts Scripted.identity_key Scripted.length_embed_documents
        Scripted.mixed_texts (svc', b2) = (Ok again, (svc', b2)) /\
      ((forall t1 t2, t1 ∈ Scripted.mixed_texts -> t2 ∈ Scripted.mixed_texts ->
          Scripted.identity_key t1 = Scripted.identity_key t2 -> t1 = t2) ->
       again = embeddings).
Proof.
  apply (repeated_batch_is_served_from_cache Scripted.identity_key
           Scripted.length_embed_documents String.length
           (fun texts b => eq_refl) Scripted.mixed_texts Scripted.warm_service tt).
  - reflexivity.
  - reflexivity.
Defined.

Lemma embed_texts_sends_each_miss_once_witness :
  exists embeddings svc' batches,
    embed_texts Scripted.identity_key Recording.logging_embed_documents
      Scripted.mixed_texts (Scripted.warm_service, [])
    = (Ok embeddings, (svc', [] ++ batches)) /\
    concat batches
    = texts_to_embed Scripted.identity_key Scripted.warm_service Scripted.mixed_texts /\
    Forall (fun batch : list string =>
              (0 < length batch <= Z.to_nat (batch_size Scripted.warm_service))%nat)
      batches.
Proof.
  apply (embed_texts_sends_each_miss_once Scripted.identity_key
           Scripted.mixed_texts Scripted.warm_service []).
  reflexivity.
Defined.

(** The batches sent for the five mixed texts: the cached one is left
    out, the repeated one is sent twice. *)
Example mixed_texts_batches :
  snd (snd (embed_texts Scripted.identity_key Recording.logging_embed_documents
              Scripted.mixed_texts (Scripted.warm_service, [])))
  = [["plan"; "q4 targets"]; ["plan"; "summary"]].
Proof. vm_compute; reflexivity. Qed.

Lemma embed_documents_keeps_ids_and_metadata_witness :
  exists vectors st',
    embed_documents Scripted.identity_key Scripted.length_embed_documents
      Scripted.chunks (Scripted.empty_service, tt) = (Ok vectors, st') /\
    exists embeddings,
      embed_texts Scripted.identity_key Scripted.length_embed_documents
        (map page_content Scripted.chunks) (Scripted.empty_service, tt)
      = (Ok embeddings, st').
Proof.
  destruct (EmbeddingsProps.embed_documents_returns Scripted.identity_key
              Scripted.length_embed_documents String.length
              (fun texts b => eq_refl) Scripted.chunks
              Scripted.empty_service tt eq_refl) as (vectors & st' & Hrun).
  exists vectors, st'. split; [exact Hrun|].
  destruct (embed_documents_keeps_ids_and_metadata Scripted.identity_key
              Scripted.length_embed_documents Scripted.chunks
              (Scripted.empty_service, tt) st' vectors Hrun) as (es & Hes & _).
  exists es. exact Hes.
Defined.

End EmbeddingsMore.

(** ** More on the search service *)

Module SearchMore.
Import Search SearchSpec.

Lemma format_match_formats {Score} (m : Match Score) r :
  format_match m = Ok r -> formats_to m r.
Proof.
  unfold format_match, new_SearchResult, formats_to.
  destruct (dict_get (metadata_of m) "text" (VStr "")); try discriminate.
  intros [= <-]. repeat split.
Qed.

Lemma format_matches_formats {Score} (matches : list (Match Score)) rs :
  format_matches matches = Ok rs -> Forall2 formats_to matches rs.
Proof.
  revert rs. induction matches as [|m rest IH]; intros rs; cbn.
  - intros [= <-]. constructor.
  - destruct (format_match m) as [r|e] eqn:Hm; [|discriminate].
    destruct (format_matches rest) as [rs'|e]; [|discriminate].
    intros [= <-]. constructor; [by apply format_match_formats|by apply IH].
Qed.

Lemma format_others_ids {Score} source (matches : list (Match Score)) rs :
  format_others source matches = Ok rs ->
  map document_id rs = filter (fun id => id <> source) (map match_id matches).
Proof.
  revert rs. induction matches as [|m rest IH]; intros rs;
    cbn [format_others map].
  - intros [= <-]. reflexivity.
  - rewrite filter_cons.
    destruct (decide (match_id m <> source)) as [Hne|Heq]; [|by apply IH].
    destruct (format_match m) as [r|e] eqn:Hm; [|discriminate].
    destruct (format_others source rest) as [rs'|e]; [|discriminate].
    intros [= <-]. cbn. rewrite (IH rs' eq_refl).
    by destruct (format_match_formats _ _ Hm) as (-> & _).
Qed.

Section SearchService.

Context {Vec Score W : Type}.
Variable embed_text : string -> M W Vec.
Variable pinecone_query :
  Vec -> Z -> string -> option dict -> bool -> M W (list (Match Score)).
Variable pinecone_fetch : list string -> M W (gmap string (Fetched Vec)).
Variable answer_question : string -> string -> bool -> M W dict.

Local Abbreviation search := (search embed_text pinecone_query).
Local Abbreviation search_with_answer :=
  (search_with_answer embed_text pinecone_query answer_question).
Local Abbreviation find_similar_documents :=
  (find_similar_documents pinecone_query pinecone_fetch).


(** X9: when the index holds no vector for the document,
    [find_similar_documents] raises ValueError naming the document, and
    the index is not queried. *)
Theorem find_similar_unknown_document
    (source : string) (top_k : Z) (w w1 : W) :
  pinecone_fetch [source] w = (Ok ∅, w1) ->
  find_similar_documents source top_k w
  = (Raise (ValueError ("Document " +:+ source +:+ " not found")), w1).
Proof.
  intros Hfetch. unfold Search.find_similar_documents, bind. rewrite Hfetch.
  destruct (decide ((∅ : gmap string (Fetched Vec)) = ∅)); [reflexivity|done].
Qed.

(** X10: the results [find_similar_documents] returns are, in the
    index's order, the first [top_k] matches whose id is not the
    source's, among the matches the index returned for the source's own
    vector when asked for [top_k + 1] of them. *)
Theorem find_similar_returns_first_others
    (source : string) (top_k : Z) (w w' : W)
    (rs : list (SearchResult Score)) :
  0 <= top_k ->
  find_similar_documents source top_k w = (Ok rs, w') ->
  exists vectors fetched w1 matches,
    pinecone_fetch [source] w = (Ok vectors, w1) /\
    vectors !! source = Some fetched /\
    pinecone_query (fetched_values fetched) (top_k + 1) "" None true w1
      = (Ok matches, w') /\
    map document_id rs
    = take (Z.to_nat top_k)
        (filter (fun id => id <> source) (map match_id matches)).
Proof.
  intros Hk. unfold Search.find_similar_documents, bind, lift, raise, ret.
  destruct (pinecone_fetch [source] w) as [[vectors|e] w1] eqn:Hfetch;
    [|discriminate].
  destruct (decide (vectors = ∅)); [discriminate|].
  destruct (vectors !! source) as [fetched|] eqn:Hsrc; [|discriminate].
  destruct (pinecone_query _ _ _ _ _ w1) as [[matches|e] w2] eqn:Hq; [|discriminate].
  destruct (format_others source matches) as [others|e] eqn:Hfmt; [|discriminate].
  intros [= <- <-]. exists vectors, fetched, w1, matches.
  split; [reflexivity|]. split; [exact Hsrc|]. split; [exact Hq|].
  unfold slice_to. destruct (Z.leb_spec 0 top_k); [|lia].
  rewrite <- (format_others_ids _ _ _ Hfmt). symmetry. apply firstn_map.
Qed.


End SearchService.


Lemma find_similar_unknown_document_witness :
  find_similar_documents (Scripted.scripted_query Scripted.passages)
    (Scripted.scripted_fetch Scripted.stored_vectors) "doc-9" 3 tt
  = (Raise (ValueError ("Document " +:+ "doc-9" +:+ " not found")), tt).
Proof.
  apply (find_similar_unknown_document (Scripted.scripted_query Scripted.passages)
           (Scripted.scripted_fetch Scripted.stored_vectors) "doc-9" 3 tt tt).
  vm_compute; reflexivity.
Defined.

Lemma find_similar_returns_first_others_witness :
  0 <= 2 /\
  exists rs,
    find_similar_documents (Scripted.scripted_query Scripted.passages)
      (Scripted.scripted_fetch Scripted.stored_vectors) "doc-1" 2 tt
    = (Ok rs, tt) /\
    exists vectors fetched w1 matches,
      Scripted.scripted_fetch Scripted.stored_vectors ["doc-1"] tt
        = (Ok vectors, w1) /\
      vectors !! "doc-1" = Some fetched /\
      Scripted.scripted_query Scripted.passages (fetched_values fetched)
        (2 + 1) "" None true w1 = (Ok matches, tt) /\
      map document_id rs
      = take (Z.to_nat 2)
          (filter (fun id => id <> "doc-1") (map match_id matches)).
Proof.
  assert (Hk : 0 <= 2) by lia.
  split; [exact Hk|]. eexists. split; [vm_compute; reflexivity|].
  eapply (find_similar_returns_first_others
            (Scripted.scripted_query Scripted.passages)
            (Scripted.scripted_fetch Scripted.stored_vectors) "doc-1" 2 tt tt _ Hk).
  vm_compute; reflexivity.
Defined.


(** The two passages similar to "doc-1". *)
Example similar_to_first_passage :
  exists rs,
    find_similar_documents (Scripted.scripted_query Scripted.passages)
      (Scripted.scripted_fetch Scripted.stored_vectors) "doc-1" 2 tt
    = (Ok rs, tt) /\
    map document_id rs = ["doc-2"; "doc-3"].
Proof. eexists. split; [vm_compute; reflexivity|reflexivity]. Qed.

End SearchMore.

(** ** More on the QA chain *)

Module QAMore.
Import QA.

Section QAChain.

Context {L : Type}.
Variable chain_invoke : prompt -> gmap string string -> M L (gmap string string).

Local Abbreviation answer_question := (answer_question chain_invoke).
Local Abbreviation answer_with_conversation_history :=
  (answer_with_conversation_history chain_invoke).

(** X12: [answer_question] never touches the conversation history,
    whether the LLM answers or raises. *)
Theorem answer_question_leaves_history
    (q context : string) (include_sources : bool) (qa : QAChain) (l : L) :
  fst (snd (answer_question q context include_sources (qa, l))) = qa.
Proof.
  unfold QA.answer_question, bind, llm, ret.
  destruct (chain_invoke _ _ l) as [[res|e] l1]; reflexivity.
Qed.

(** X13: [answer_with_conversation_history] leaves the stored history
    as it was when it is told not to update it, and when the LLM call
    raises: a failed question adds no turn. *)
Theorem history_kept_without_update_and_on_failure
    (q context : string) (update_history : bool) (qa qa' : QAChain)
    (l l' : L) (r : result dict) :
  answer_with_conversation_history q context update_history (qa, l)
    = (r, (qa', l')) ->
  update_history = false \/ is_ok r = false ->
  qa' = qa.
Proof.
  unfold QA.answer_with_conversation_history, bind, self, llm, history_append,
    modify, ret. cbn [fst].
  destruct (chain_invoke _ _ l) as [[res|e] l1].
  - destruct update_history.
    + intros [= <- <- <-] [Hno|Hfail]; discriminate.
    + intros [= <- <- <-] _. reflexivity.
  - intros [= <- <- <-] _. reflexivity.
Qed.

End QAChain.

(** The transcript is the placeholder exactly for the empty history. *)
Lemma format_history_is_placeholder (history : list turn) :
  format_history history = "No previous conversation." <-> history = [].
Proof.
  split; [|intros ->; reflexivity].
  destruct history as [|t history]; [reflexivity|]. intros Hfmt. exfalso.
  unfold format_history in Hfmt.
  assert (Hlast : exists item items, last_n 5 (t :: history) = item :: items).
  { unfold last_n.
    destruct (drop (length (t :: history) - 5) (t :: history)) as [|item items] eqn:Hd;
      [|eauto].
    apply (f_equal length) in Hd. rewrite length_drop in Hd. cbn in Hd. lia. }
  destruct Hlast as (item & items & Hlast). rewrite Hlast in Hfmt.
  cbn [map] in Hfmt.
  destruct (QAProps.join_starts TextSplitter.nl (render_turn item) "Q"
              (": " +:+ question item +:+ TextSplitter.nl +:+ "A: " +:+ answer item)
              (map render_turn items) eq_refl) as (tail & Hjoin).
  rewrite Hjoin in Hfmt.
  destruct (decide (String "Q" tail = "")); discriminate.
Qed.

Section Prompt.

Context {L : Type}.
Variable chain_invoke : prompt -> gmap string string -> M L (gmap string string).

Local Abbreviation answer_with_conversation_history :=
  (answer_with_conversation_history chain_invoke).

(** X14: every run of [answer_with_conversation_history], whether it
    returns or raises, is one call of the LLM with the conversational
    prompt, the context and the question given, and a transcript under
    'chat_history'; the run returns exactly when that call does and
    leaves the backend as that call left it.  The transcript sent is
    the placeholder 'No previous conversation.' exactly when the stored
    history is empty. *)
Theorem placeholder_is_sent_for_empty_history
    (q context : string) (update_history : bool) (qa : QAChain) (l : L)
    (r : result dict) (st' : QAChain * L) :
  answer_with_conversation_history q context update_history (qa, l) = (r, st') ->
  exists transcript reply,
    chain_invoke conversational_qa_prompt
      (<["chat_history" := transcript]>
       (<["context" := context]> {["question" := q]})) l
    = (reply, snd st') /\
    is_ok r = is_ok reply /\
    (transcript = "No previous conversation." <-> chat_history qa = []).
Proof.
  unfold QA.answer_with_conversation_history, bind, self, llm, history_append,
    modify, ret. cbn [fst].
  intros Hrun. exists (format_history (chat_history qa)).
  destruct (chain_invoke _ _ l) as [[res|e] l1].
  - exists (Ok res). destruct update_history; injection Hrun as <- <-;
      (split; [reflexivity|]); (split; [reflexivity|]);
      apply format_history_is_placeholder.
  - exists (Raise e). injection Hrun as <- <-.
    split; [reflexivity|]. split; [reflexivity|].
    apply format_history_is_placeholder.
Qed.

End Prompt.

(** On a recording LLM, the first question of a fresh chain is logged
    with the placeholder as its transcript. *)
Lemma placeholder_is_sent_for_empty_history_witness :
  snd (snd (answer_with_conversation_history (Recording.logging_chain "fine")
              "What changed?" "The budget grew." true (mkQAChain [], [])))
  = [(conversational_qa_prompt,
      <["chat_history" := "No previous conversation."]>
      (<["context" := "The budget grew."]> {["question" := "What changed?"]}))].
Proof.
  destruct (answer_with_conversation_history (Recording.logging_chain "fine")
              "What changed?" "The budget grew." true (mkQAChain [], []))
    as [r st'] eqn:Hrun.
  destruct (placeholder_is_sent_for_empty_history (Recording.logging_chain "fine")
              "What changed?" "The budget grew." true (mkQAChain []) [] r st' Hrun)
    as (transcript & reply & Hcall & _ & Hempty).
  cbn [snd]. rewrite (proj2 Hempty eq_refl) in Hcall.
  unfold Recording.logging_chain in Hcall. injection Hcall as _ <-.
  reflexivity.
Defined.

Lemma history_kept_without_update_and_on_failure_witness :
  fst (snd (answer_with_conversation_history
              (Scripted.constant_chain "text" "fine") "What changed?"
              "The budget grew." false Scripted.fresh_chain))
  = mkQAChain [].
Proof.
  destruct (answer_with_conversation_history
              (Scripted.constant_chain "text" "fine") "What changed?"
              "The budget grew." false Scripted.fresh_chain)
    as [r [qa' l']] eqn:Hrun.
  apply (history_kept_without_update_and_on_failure
           (Scripted.constant_chain "text" "fine") "What changed?"
           "The budget grew." false (mkQAChain []) qa' tt l' r Hrun).
  left; reflexivity.
Defined.

End QAMore.

(** ** More on the summarization chain *)

Module SummarizationMore.
Import Summarization.

Section SummarizationChain.

Context {L : Type}.
Variable chain_invoke : prompt -> string -> M L (gmap string string).
Variable recursive_split_text :
  Z -> Z -> list string -> string -> result (list string).
Variable map_reduce_invoke :
  prompt -> prompt -> list Document -> M L (gmap string string).

Local Abbreviation summarize :=
  (summarize chain_invoke recursive_split_text map_reduce_invoke).
Local Abbreviation _map_reduce_summarize :=
  (_map_reduce_summarize recursive_split_text map_reduce_invoke).
Local Abbreviation batch_summarize :=
  (batch_summarize chain_invoke recursive_split_text map_reduce_invoke).

Lemma estimate_over_limit (text : string) :
  (max_doc_length <? _estimate_tokens text)
  = bool_decide (16004 <= Z.of_nat (String.length text)).
Proof.
  unfold max_doc_length, _estimate_tokens.
  destruct (Z.ltb_spec 4000 (Z.of_nat (String.length text) / 4)) as [H|H];
    symmetry; [apply bool_decide_eq_true|apply bool_decide_eq_false];
    Z.div_mod_to_equations; lia.
Qed.


(** X16: for the document types 'technical' and 'few-shot' the
    requested length has no effect on what is asked of the LLM: two
    requests that differ in length only leave the backend in the same
    state and, when they return, carry the same summary. *)
Theorem summarize_ignores_length_for_special_types
    (text length1 length2 document_type : string) (l : L) :
  document_type = "technical" \/ document_type = "few-shot" ->
  snd (summarize text length1 document_type l)
  = snd (summarize text length2 document_type l) /\
  forall r1 l1, summarize text length1 document_type l = (Ok r1, l1) ->
    exists r2, summarize text length2 document_type l = (Ok r2, l1) /\
               r1 !! "summary" = r2 !! "summary".
Proof.
  intros Htype.
  assert (Hprompt : get_summary_prompt length1 document_type
                    = get_summary_prompt length2 document_type).
  { unfold get_summary_prompt. destruct Htype as [-> | ->]; reflexivity. }
  unfold Summarization.summarize. rewrite Hprompt.
  destruct (max_doc_length <? _estimate_tokens text).
  - split; [reflexivity|]. intros r1 l1 Hrun. exists r1. split; [exact Hrun|reflexivity].
  - unfold bind, ret.
    destruct (chain_invoke _ text l) as [[result|e] l0].
    + split; [reflexivity|]. intros r1 l1 [= <- <-]. eexists. split; [reflexivity|].
      by simplify_map_eq.
    + split; [reflexivity|]. intros r1 l1 Hrun. discriminate.
Qed.


(** X18: summarizing two lists of texts one after the other gives the
    same entries and leaves the same backend state as summarizing their
    concatenation. *)
Theorem batch_summarize_app
    (texts1 texts2 : list string) (length document_type : string) (l : L) :
  exists entries1 l1 entries2 l2,
    batch_summarize texts1 length document_type l = (Ok entries1, l1) /\
    batch_summarize texts2 length document_type l1 = (Ok entries2, l2) /\
    batch_summarize (texts1 ++ texts2) length document_type l
    = (Ok (entries1 ++ entries2), l2).
Proof.
  revert l. induction texts1 as [|text rest IH]; intros l.
  - destruct (SummarizationProps.batch_summarize_total chain_invoke
                recursive_split_text map_reduce_invoke texts2 length
                document_type l) as (entries2 & l2 & Hrun).
    exists [], l, entries2, l2. repeat split; exact Hrun.
  - destruct (IH (snd (summarize text length document_type l)))
      as (entries1 & l1 & entries2 & l2 & Hrun1 & Hrun2 & Hrun).
    eexists _, l1, entries2, l2. split; [|split; [exact Hrun2|]].
    + rewrite SummarizationProps.batch_summarize_cons, Hrun1. reflexivity.
    + cbn [app]. rewrite SummarizationProps.batch_summarize_cons, Hrun.
      reflexivity.
Qed.

End SummarizationChain.



Lemma summarize_ignores_length_for_special_types_witness :
  snd (summarize (Scripted.constant_chain "text" " short ")
         Scripted.whole_text_splitter (Scripted.constant_map_reduce " combined ")
         "Quarterly report." "brief" "technical" tt)
  = snd (summarize (Scripted.constant_chain "text" " short ")
           Scripted.whole_text_splitter (Scripted.constant_map_reduce " combined ")
           "Quarterly report." "detailed" "technical" tt).
Proof.
  apply (summarize_ignores_length_for_special_types
           (Scripted.constant_chain "text" " short ")
           Scripted.whole_text_splitter (Scripted.constant_map_reduce " combined ")
           "Quarterly report." "brief" "detailed" "technical" tt).
  left; reflexivity.
Defined.

End SummarizationMore.

(** ** Chunked documents *)

Module ChunkingProps.
Import Chunking.

Section Splitters.

Variable recursive_split_documents :
  Z -> Z -> list string -> list Document -> result (list Document).

Local Abbreviation split_documents := (split_documents recursive_split_documents).
Local Abbreviation adaptive_split_documents :=
  (adaptive_split_documents recursive_split_documents).

(** X19: the chunks [split_documents] returns are the chunks langchain
    produced, in the same order and with the same content; the [i]-th
    one carries 'chunk_id' [i] (so the ids count up from 0) and
    'chunk_size' the length of its content, and keeps every other
    metadata entry. *)
Theorem split_documents_numbers_chunks
    (self : TextSplitter.DocumentTextSplitter) (documents chunks : list Document) :
  split_documents self documents = Ok chunks ->
  exists chunked_docs,
    recursive_split_documents (TextSplitter.chunk_size self)
      (TextSplitter.chunk_overlap self) (TextSplitter.separators self) documents
      = Ok chunked_docs /\
    length chunks = length chunked_docs /\
    forall i chunk, chunks !! i = Some chunk ->
      exists doc,
        chunked_docs !! i = Some doc /\
        page_content chunk = page_content doc /\
        metadata chunk !! "chunk_id" = Some (VInt (Z.of_nat i)) /\
        metadata chunk !! "chunk_size"
          = Some (VInt (Z.of_nat (String.length (page_content doc)))) /\
        forall k, k <> "chunk_id" -> k <> "chunk_size" ->
          metadata chunk !! k = metadata doc !! k.
Proof.
  unfold Chunking.split_documents.
  destruct (recursive_split_documents _ _ _ documents) as [chunked|e];
    [|discriminate].
  intros [= <-]. exists chunked. split; [reflexivity|].
  split; [apply length_imap|].
  intros i chunk Hi. rewrite list_lookup_imap in Hi.
  destruct (chunked !! i) as [doc|]; [|discriminate].
  injection Hi as <-. exists doc. split; [reflexivity|]. split; [reflexivity|].
  unfold number_chunk. cbn [metadata page_content].
  split; [by simplify_map_eq|]. split; [by simplify_map_eq|].
  intros k Hid Hsize. by rewrite !lookup_insert_ne.
Qed.

(** X21: every chunk [AdaptiveTextSplitter.split_documents] returns is
    tagged, under 'content_type', with the content type detected on the
    text of one of the documents given. *)
Theorem adaptive_chunks_are_tagged
    (self : AdaptiveTextSplitter) (documents chunks : list Document) :
  adaptive_split_documents self documents = Ok chunks ->
  Forall (fun chunk =>
            exists doc, doc ∈ documents /\
              metadata chunk !! "content_type"
                = Some (VStr (_detect_content_type (page_content doc))))
    chunks.
Proof.
  revert chunks. induction documents as [|doc rest IH]; intros chunks;
    cbn [Chunking.adaptive_split_documents].
  - intros [= <-]. constructor.
  - destruct (adaptive_chunks _ self _ doc) as [cs|e]; [|discriminate].
    destruct (adaptive_split_documents self rest) as [all_chunks|e]; [|discriminate].
    intros [= <-]. apply Forall_app. split.
    + apply Forall_forall. intros chunk Hin.
      apply list_elem_of_In, in_map_iff in Hin as (c & <- & _).
      exists doc. split; [apply elem_of_cons; by left|].
      unfold tag_content_type. cbn [metadata]. apply lookup_insert_eq.
    + eapply Forall_impl; [exact (IH _ eq_refl)|].
      intros chunk (d & Hd & Htag). exists d. split; [|exact Htag].
      apply elem_of_cons. by right.
Qed.

End Splitters.

Lemma counted_is_contained (p s : string) (skip : nat) :
  (0 < count_skipping p skip s)%nat -> contains p s = true.
Proof.
  revert skip. induction s as [|c s IH]; intros skip; cbn [count_skipping contains].
  - lia.
  - destruct skip as [|k].
    + destruct (starts_with p (String c s)); [reflexivity|].
      intros Hpos. cbn [orb]. by apply (IH 0%nat).
    + intros Hpos. rewrite (IH k Hpos). apply orb_true_r.
Qed.

(** X20: [_detect_content_type] answers 'code', 'table' or 'general',
    and the answer depends on three facts only: whether the text holds a
    code fence, how many indented lines it has, and how many bars.  A
    fence or more than 5 indented lines make it code; otherwise more
    than 10 bars make it a table (the test that a bar occurs adds
    nothing); otherwise it is general. *)
Theorem detect_content_type_cases (text : string) :
  let code := contains "```" text || (5 <? count indented_line text)%nat in
  (code = true -> _detect_content_type text = "code") /\
  (code = false -> (10 < count "|" text)%nat ->
   _detect_content_type text = "table") /\
  (code = false -> (count "|" text <= 10)%nat ->
   _detect_content_type text = "general").
Proof.
  intros code. unfold _detect_content_type. fold code.
  split; [|split].
  - intros ->. reflexivity.
  - intros -> Hbars.
    rewrite (counted_is_contained "|" text 0) by (unfold count in Hbars; lia).
    destruct (Nat.ltb_spec 10 (count "|" text)); [reflexivity|lia].
  - intros -> Hbars.
    destruct (Nat.ltb_spec 10 (count "|" text)); [lia|].
    by rewrite andb_false_r.
Qed.

Lemma split_documents_numbers_chunks_witness :
  exists chunks,
    split_documents Cases.no_split_documents
      (TextSplitter.create_text_splitter 1000 150) Cases.notes = Ok chunks /\
    length chunks = length Cases.notes.
Proof.
  eexists. split; [reflexivity|].
  destruct (split_documents_numbers_chunks Cases.no_split_documents
              (TextSplitter.create_text_splitter 1000 150) Cases.notes _ eq_refl)
    as (chunked & Hsplit & Hlen & _).
  injection Hsplit as <-. exact Hlen.
Defined.

Lemma adaptive_chunks_are_tagged_witness :
  exists chunks,
    adaptive_split_documents Cases.no_split_documents
      (mkAdaptive 1000 500 2000 150) Cases.notes = Ok chunks /\
    Forall (fun chunk =>
              exists doc, doc ∈ Cases.notes /\
                metadata chunk !! "content_type"
                  = Some (VStr (_detect_content_type (page_content doc))))
      chunks.
Proof.
  eexists. split; [reflexivity|].
  apply (adaptive_chunks_are_tagged Cases.no_split_documents
           (mkAdaptive 1000 500 2000 150) Cases.notes).
  reflexivity.
Defined.

Lemma detect_content_type_cases_witness :
  _detect_content_type "```print(1)```" = "code" /\
  _detect_content_type "a|b|c|d|e|f|g|h|i|j|k|l" = "table" /\
  _detect_content_type "a|b" = "general".
Proof.
  split; [|split].
  - apply (proj1 (detect_content_type_cases "```print(1)```")). reflexivity.
  - apply (proj1 (proj2 (detect_content_type_cases "a|b|c|d|e|f|g|h|i|j|k|l")));
      [reflexivity|vm_compute; lia].
  - apply (proj2 (proj2 (detect_content_type_cases "a|b")));
      [reflexivity|vm_compute; lia].
Defined.

End ChunkingProps.

(** ** The vector index service *)

Module PineconeProps.
Import Pinecone EmbeddingsSpec.

Section Upsert.

Context {Vec I P : Type}.
Variable index_name : string.
Variable pc_Index : string -> M P I.
Variable index_upsert :
  I -> list (Embeddings.Vector Vec) -> string -> M P (option Z).

Local Abbreviation upsert_batches := (upsert_batches (P:=P) index_upsert).
Local Abbreviation upsert := (upsert index_name pc_Index index_upsert).
Local Abbreviation get_index := (get_index index_name pc_Index).

(** A connected service does not connect again. *)
Lemma get_index_connected svc idx (p : P) :
  index svc = Some idx -> get_index (svc, p) = (Ok idx, (svc, p)).
Proof. intros Hidx. unfold Pinecone.get_index. rewrite Hidx. reflexivity. Qed.

Section Accepting.

(** The index accepts every batch, and reports either no count or the
    size of the batch. *)
Variable idx : I.
Variable namespace : string.
Hypothesis upsert_spec :
  forall batch p, exists r,
    fst (index_upsert idx batch namespace p) = Ok r /\
    (r = None \/ r = Some (Z.of_nat (length batch))).

Lemma upsert_batches_effect n (vectors : list (Embeddings.Vector Vec)) :
  (0 < n)%nat ->
  forall fuel i total svc (p : P),
    (length vectors - i <= fuel)%nat ->
    upsert_batches idx namespace n vectors
      (range_from fuel i (length vectors) n) total (svc, p)
    = (Ok (total + Z.of_nat (length (drop i vectors))),
       (svc, client_after (fun batch => index_upsert idx batch namespace) p
               (map (fun i => slice i n vectors)
                  (range_from fuel i (length vectors) n)))).
Proof.
  intros Hn fuel. induction fuel as [|fuel IH]; intros i total svc p Hfuel.
  - cbn. rewrite drop_ge by lia. cbn. by rewrite Z.add_0_r.
  - cbn [range_from].
    destruct (decide (i < length vectors)%nat) as [Hi|Hi].
    + cbn [Pinecone.upsert_batches map]. unfold bind at 1, backend at 1.
      unfold client_after. cbn [foldl].
      fold (client_after (fun batch => index_upsert idx batch namespace)).
      destruct (upsert_spec (slice i n vectors) p) as (r & Hcall & Hcount).
      destruct (index_upsert idx (slice i n vectors) namespace p) as [r' p1].
      cbn [fst] in Hcall. subst r'. cbn [snd].
      rewrite IH by lia. f_equal. f_equal.
      assert (Hlen : Z.of_nat (length (slice i n vectors))
                     + Z.of_nat (length (drop (i + n) vectors))
                     = Z.of_nat (length (drop i vectors))).
      { unfold slice. rewrite length_take, !length_drop. lia. }
      destruct Hcount as [-> | ->]; lia.
    + cbn. rewrite drop_ge by lia. cbn. by rewrite Z.add_0_r.
Qed.

(** X22: on a connected service whose index accepts every batch and
    reports no count or the size of the batch, [upsert] with a positive
    batch size reports as 'upserted_count' the number of vectors it was
    given. *)
Theorem upsert_counts_every_vector
    (vectors : list (Embeddings.Vector Vec)) (batch_size : Z)
    (svc : Service I) (p : P) :
  index svc = Some idx ->
  0 < batch_size ->
  exists p',
    upsert vectors namespace batch_size (svc, p)
    = (Ok (<["upserted_count" := VInt (Z.of_nat (length vectors))]>
           {["namespace" := VStr namespace]}), (svc, p')).
Proof.
  intros Hidx Hsize. unfold Pinecone.upsert, bind at 1.
  rewrite (get_index_connected _ _ _ Hidx).
  unfold bind at 1, lift at 1, range_step.
  destruct (Z.eqb_spec batch_size 0) as [|_]; [lia|].
  destruct (Z.ltb_spec batch_size 0) as [|_]; [lia|].
  unfold bind at 1.
  rewrite (upsert_batches_effect (Z.to_nat batch_size) vectors ltac:(lia)
             (length vectors) 0%nat 0 svc p ltac:(lia)).
  rewrite drop_0, Z.add_0_l. unfold ret. eauto.
Qed.

End Accepting.

(** X24: a batch size that is not positive never reaches the index.
    On a connected service [upsert] with a negative batch size sends
    nothing and reports 0 upserted vectors, whatever vectors it was
    given; with a zero batch size it raises ValueError. *)
Theorem upsert_without_positive_batch_size
    (vectors : list (Embeddings.Vector Vec)) (namespace : string)
    (batch_size : Z) (svc : Service I) (idx : I) (p : P) :
  index svc = Some idx ->
  (batch_size < 0 ->
   upsert vectors namespace batch_size (svc, p)
   = (Ok (<["upserted_count" := VInt 0]> {["namespace" := VStr namespace]}),
      (svc, p))) /\
  (batch_size = 0 ->
   upsert vectors namespace batch_size (svc, p)
   = (Raise (ValueError "range() arg 3 must not be zero"), (svc, p))).
Proof.
  intros Hidx. split.
  - intros Hneg. unfold Pinecone.upsert, bind at 1.
    rewrite (get_index_connected _ _ _ Hidx).
    unfold bind at 1, lift at 1, range_step.
    destruct (Z.eqb_spec batch_size 0) as [|_]; [lia|].
    destruct (Z.ltb_spec batch_size 0) as [_|]; [|lia]. reflexivity.
  - intros ->. unfold Pinecone.upsert, bind at 1.
    rewrite (get_index_connected _ _ _ Hidx). reflexivity.
Qed.

End Upsert.

Lemma logging_upsert_after {Vec} (namespace : string)
    (log : list (list (Embeddings.Vector Vec))) batches :
  client_after (fun batch => Recording.logging_upsert tt batch namespace)
    log batches = log ++ batches.
Proof.
  unfold client_after. revert log.
  induction batches as [|batch batches IH]; intros log; cbn [foldl].
  - by rewrite app_nil_r.
  - rewrite IH. unfold Recording.logging_upsert. cbn [snd].
    rewrite <- app_assoc. reflexivity.
Qed.

(** X23: the batches a logging index receives from [upsert] on a
    connected service, with a positive batch size, are, put end to end,
    exactly the vectors given, in order; no batch is empty or longer
    than the batch size. *)
Theorem upsert_sends_every_vector_once
    {Vec : Type} (vectors : list (Embeddings.Vector Vec)) (namespace : string)
    (batch_size : Z) (log : list (list (Embeddings.Vector Vec))) :
  0 < batch_size ->
  exists r batches,
    upsert "documents" Recording.connect Recording.logging_upsert
      vectors namespace batch_size (mkService (Some tt), log)
    = (Ok r, (mkService (Some tt), log ++ batches)) /\
    concat batches = vectors /\
    Forall (fun batch : list (Embeddings.Vector Vec) =>
              (0 < length batch <= Z.to_nat batch_size)%nat) batches.
Proof.
  intros Hsize. eexists _, _. split; [|split].
  - unfold Pinecone.upsert, bind at 1.
    rewrite (get_index_connected "documents" Recording.connect
               (mkService (Some tt)) tt log eq_refl).
    unfold bind at 1, lift at 1, range_step.
    destruct (Z.eqb_spec batch_size 0) as [|_]; [lia|].
    destruct (Z.ltb_spec batch_size 0) as [|_]; [lia|].
    unfold bind at 1.
    rewrite (upsert_batches_effect Recording.logging_upsert tt namespace
               (fun batch p => ex_intro _ None (conj eq_refl (or_introl eq_refl)))
               (Z.to_nat batch_size) vectors ltac:(lia)
               (length vectors) 0%nat 0 (mkService (Some tt)) log ltac:(lia)).
    rewrite logging_upsert_after. unfold ret. reflexivity.
  - apply EmbeddingsMore.slices_cover_all. lia.
  - apply EmbeddingsMore.slices_sized. lia.
Qed.

Lemma upsert_counts_every_vector_witness :
  exists p',
    upsert "documents" Recording.connect Recording.logging_upsert
      Cases.five_vectors "tenant-a" 2 (Cases.connected, [])
    = (Ok (<["upserted_count" := VInt (Z.of_nat (length Cases.five_vectors))]>
           {["namespace" := VStr "tenant-a"]}), (Cases.connected, p')).
Proof.
  apply (upsert_counts_every_vector "documents" Recording.connect
           Recording.logging_upsert tt "tenant-a"
           (fun batch p => ex_intro _ None (conj eq_refl (or_introl eq_refl)))
           Cases.five_vectors 2 Cases.connected []).
  - reflexivity.
  - reflexivity.
Defined.

Lemma upsert_sends_every_vector_once_witness :
  exists r batches,
    upsert "documents" Recording.connect Recording.logging_upsert
      Cases.five_vectors "tenant-a" 2 (mkService (Some tt), [])
    = (Ok r, (mkService (Some tt), [] ++ batches)) /\
    concat batches = Cases.five_vectors /\
    Forall (fun batch : list (Embeddings.Vector nat) =>
              (0 < length batch <= Z.to_nat 2)%nat) batches.
Proof.
  apply (upsert_sends_every_vector_once Cases.five_vectors "tenant-a" 2 []).
  reflexivity.
Defined.

Lemma upsert_without_positive_batch_size_witness :
  upsert "documents" Recording.connect Recording.logging_upsert
    Cases.five_vectors "tenant-a" (-1) (Cases.connected, [])
  = (Ok (<["upserted_count" := VInt 0]> {["namespace" := VStr "tenant-a"]}),
     (Cases.connected, [])) /\
  upsert "documents" Recording.connect Recording.logging_upsert
    Cases.five_vectors "tenant-a" 0 (Cases.connected, [])
  = (Raise (ValueError "range() arg 3 must not be zero"), (Cases.connected, [])).
Proof.
  split.
  - apply (proj1 (upsert_without_positive_batch_size "documents"
                    Recording.connect Recording.logging_upsert
                    Cases.five_vectors "tenant-a" (-1) Cases.connected tt []
                    eq_refl)).
    reflexivity.
  - apply (proj2 (upsert_without_positive_batch_size "documents"
                    Recording.connect Recording.logging_upsert
                    Cases.five_vectors "tenant-a" 0 Cases.connected tt []
                    eq_refl)).
    reflexivity.
Defined.

End PineconeProps.

(** ** The document registry *)

Module DocumentsProps.
Import Documents.

(** *** Ordered dictionaries *)

Lemma od_get_set_eq {V} (k : string) (v : V) d : od_get k (od_set k v d) = Some v.
Proof.
  induction d as [|[k' v'] d IH]; cbn.
  - by destruct (decide (k = k)).
  - destruct (decide (k = k')) as [->|Hne]; cbn.
    + by destruct (decide (k' = k')).
    + destruct (decide (k = k')); [done|exact IH].
Qed.

Lemma od_get_set_ne {V} (k k' : string) (v : V) d :
  k' <> k -> od_get k' (od_set k v d) = od_get k' d.
Proof.
  intros Hne. induction d as [|[k0 v0] d IH]; cbn.
  - by destruct (decide (k' = k)).
  - destruct (decide (k = k0)) as [->|Hk]; cbn.
    + by destruct (decide (k' = k0)).
    + destruct (decide (k' = k0)); [reflexivity|exact IH].
Qed.

Lemma od_get_del_eq {V} (k : string) (d : list (string * V)) :
  od_get k (od_del k d) = None.
Proof.
  unfold od_del. induction d as [|[k' v'] d IH]; [reflexivity|].
  rewrite filter_cons. cbn [fst].
  destruct (decide (k' <> k)) as [Hne|_]; [|exact IH].
  cbn. destruct (decide (k = k')); [congruence|exact IH].
Qed.

Lemma od_get_del_ne {V} (k k' : string) (d : list (string * V)) :
  k' <> k -> od_get k' (od_del k d) = od_get k' d.
Proof.
  intros Hne. unfold od_del. induction d as [|[k0 v0] d IH]; [reflexivity|].
  rewrite filter_cons. cbn [fst].
  destruct (decide (k0 <> k)) as [Hk|Hk]; cbn.
  - destruct (decide (k' = k0)); [reflexivity|exact IH].
  - destruct (decide (k' = k0)) as [->|_]; [|exact IH].
    exfalso. apply Hk. exact Hne.
Qed.

Lemma py_slice_page {A} (skip limit : Z) (l : list A) :
  0 <= skip -> 0 <= limit ->
  py_slice skip (skip + limit) l = take (Z.to_nat limit) (drop (Z.to_nat skip) l).
Proof.
  intros Hskip Hlimit. unfold py_slice, clamp.
  destruct (Z.ltb_spec skip 0); [lia|].
  destruct (Z.ltb_spec (skip + limit) 0); [lia|].
  destruct (decide (Z.of_nat (length l) <= skip)) as [Hout|Hin].
  - rewrite !drop_ge by lia. by rewrite !take_nil.
  - replace (Z.to_nat (Z.min skip (Z.of_nat (length l)))) with (Z.to_nat skip) by lia.
    destruct (decide (skip + limit <= Z.of_nat (length l))) as [Hfit|Hcut].
    + f_equal. lia.
    + rewrite !take_ge; [reflexivity| |]; rewrite length_drop; lia.
Qed.

Lemma take_then_more {A} (n m : nat) (l : list A) :
  take n l ++ take m (drop n l) = take (n + m) l.
Proof.
  revert l. induction n as [|n IH]; intros l; [reflexivity|].
  destruct l as [|a l]; [by rewrite drop_nil, !take_nil|]. cbn. by rewrite IH.
Qed.

(** What tagging does to the chunk at position [i]. *)
Lemma tag_chunk_fields (doc_id : string) (i : nat) (chunk : Document) :
  page_content (tag_chunk doc_id i chunk) = page_content chunk /\
  metadata (tag_chunk doc_id i chunk) !! "document_id" = Some (VStr doc_id) /\
  metadata (tag_chunk doc_id i chunk) !! "id"
    = Some (VStr (doc_id +:+ "_chunk_" +:+ pretty i)) /\
  forall k, k <> "id" -> k <> "document_id" ->
    metadata (tag_chunk doc_id i chunk) !! k = metadata chunk !! k.
Proof.
  unfold tag_chunk. cbn [metadata page_content].
  split; [reflexivity|]. split; [by simplify_map_eq|].
  split; [by rewrite lookup_insert_eq|].
  intros k Hid Hdoc. by rewrite !lookup_insert_ne.
Qed.

(** Chunk ids name their position. *)
Lemma chunk_id_inj (doc_id : string) (i j : nat) :
  doc_id +:+ "_chunk_" +:+ pretty i = doc_id +:+ "_chunk_" +:+ pretty j -> i = j.
Proof.
  intros Heq. apply String.app_inj, (String.app_inj "_chunk_") in Heq.
  by apply (inj pretty) in Heq.
Qed.

Section DocumentService.

Context {Vec W : Type}.
Variable uuid4 : M W string.
Variable load_from_bytes :
  list Byte.byte -> string -> string -> M W (list Document).
Variable split_documents : list Document -> M W (list Document).
Variable embed_documents : list Document -> M W (list (Embeddings.Vector Vec)).
Variable pinecone_upsert : list (Embeddings.Vector Vec) -> M W dict.
Variable pinecone_delete : dict -> M W unit.

Local Abbreviation process_document :=
  (process_document load_from_bytes split_documents embed_documents pinecone_upsert).
Local Abbreviation upload_and_process_document :=
  (upload_and_process_document uuid4 load_from_bytes split_documents
     embed_documents pinecone_upsert).
Local Abbreviation delete_document := (delete_document (W:=W) pinecone_delete).
Local Abbreviation list_documents := (list_documents (W:=W)).

(** What the registry holds for [doc_id] when [process_document] ends,
    however it ends. *)
Lemma process_document_registry doc_id content name type db (w : W) r db' w' :
  process_document doc_id content name type (db, w) = (r, (db', w')) ->
  (exists md,
     od_get doc_id db' = Some md /\
     document_id md = doc_id /\
     filename md = name /\
     file_size md = Z.of_nat (length content) /\
     (is_ok r = false -> status md = PROCESSING) /\
     (is_ok r = true -> r = Ok md /\ status md = COMPLETED)) /\
  forall other, other <> doc_id -> od_get other db' = od_get other db.
Proof.
  unfold Documents.process_document, bind, store, modify, world, ret.
  destruct (load_from_bytes content name type w) as [[documents|e] w1].
  2:{ intros [= <- <- <-]. split.
      - eexists. split; [apply od_get_set_eq|]. repeat split; discriminate.
      - intros other Hne. by rewrite od_get_set_ne. }
  destruct (split_documents documents w1) as [[chunks|e] w2].
  2:{ intros [= <- <- <-]. split.
      - eexists. split; [apply od_get_set_eq|].
        destruct documents; repeat split; discriminate.
      - intros other Hne. by rewrite !od_get_set_ne. }
  destruct (embed_documents _ w2) as [[vectors|e] w3].
  2:{ intros [= <- <- <-]. split.
      - eexists. split; [apply od_get_set_eq|].
        destruct documents; repeat split; discriminate.
      - intros other Hne. by rewrite !od_get_set_ne. }
  destruct (pinecone_upsert vectors w3) as [[reply|e] w4].
  2:{ intros [= <- <- <-]. split.
      - eexists. split; [apply od_get_set_eq|].
        destruct documents; repeat split; discriminate.
      - intros other Hne. by rewrite !od_get_set_ne. }
  intros [= <- <- <-]. split.
  - eexists. split; [apply od_get_set_eq|].
    destruct documents; repeat split; discriminate.
  - intros other Hne. by rewrite !od_get_set_ne.
Qed.

(** X25: when an upload fails after its id was drawn, the registry
    still holds the document, under that id and with status FAILED, with
    the file name and size of the upload; the entries of the other
    documents are as they were. *)
Theorem failed_upload_is_marked_failed
    (content : list Byte.byte) (name type doc_id : string)
    (db db' : list (string * DocumentMetadata)) (w w1 w' : W) (e : exn) :
  uuid4 w = (Ok doc_id, w1) ->
  upload_and_process_document content name type (db, w) = (Raise e, (db', w')) ->
  (exists md,
     od_get doc_id db' = Some md /\
     status md = FAILED /\
     filename md = name /\
     file_size md = Z.of_nat (length content)) /\
  forall other, other <> doc_id -> od_get other db' = od_get other db.
Proof.
  intros Hid. unfold Documents.upload_and_process_document, world at 1.
  rewrite Hid. unfold try_except.
  destruct (process_document doc_id content name type (db, w1))
    as [[md0|e0] [db2 w2]] eqn:Hrun; [discriminate|].
  destruct (process_document_registry _ _ _ _ _ _ _ _ _ Hrun)
    as ((md & Hget & _ & Hname & Hsize & _ & _) & Hframe).
  unfold mark_failed, bind, documents_db, store, modify, raise. cbn [fst].
  rewrite Hget. intros [= <- <- <-]. split.
  - exists (with_status FAILED md). split; [apply od_get_set_eq|].
    repeat split; assumption.
  - intros other Hne. rewrite od_get_set_ne by exact Hne. by apply Hframe.
Qed.

(** The calls behind a completed [process_document]. *)
Lemma process_document_completed doc_id content name type db (w : W) md db' w' :
  process_document doc_id content name type (db, w) = (Ok md, (db', w')) ->
  exists documents w1 chunks w2 vectors w3 reply,
    load_from_bytes content name type w = (Ok documents, w1) /\
    split_documents documents w1 = (Ok chunks, w2) /\
    embed_documents (imap (tag_chunk doc_id) chunks) w2 = (Ok vectors, w3) /\
    pinecone_upsert vectors w3 = (Ok reply, w') /\
    num_chunks md = Some (Z.of_nat (length chunks)).
Proof.
  unfold Documents.process_document, bind, store, modify, world, ret.
  destruct (load_from_bytes content name type w) as [[documents|e] w1] eqn:Hload;
    [|discriminate].
  destruct (split_documents documents w1) as [[chunks|e] w2] eqn:Hsplit;
    [|discriminate].
  destruct (embed_documents _ w2) as [[vectors|e] w3] eqn:Hembed; [|discriminate].
  destruct (pinecone_upsert vectors w3) as [[reply|e] w4] eqn:Hupsert;
    [|discriminate].
  intros [= <- <- <-]. exists documents, w1, chunks, w2, vectors, w3, reply.
  split; [reflexivity|]. split; [exact Hsplit|]. split; [exact Hembed|].
  split; [exact Hupsert|]. destruct documents; reflexivity.
Qed.

(** X26: a successful upload went through load, split, embed and upsert
    in that order, the chunks being embedded after they were given the
    document id and their own ids, and all their vectors being sent to
    the index in one upsert.  The record it returns is the one the
    registry then holds under the drawn id: status COMPLETED, the file
    name and size of the upload, and 'num_chunks' the number of chunks
    the splitter returned; the entries of the other documents are as
    they were. *)
Theorem completed_upload_is_registered
    (content : list Byte.byte) (name type : string)
    (db db' : list (string * DocumentMetadata)) (w w' : W)
    (md : DocumentMetadata) :
  upload_and_process_document content name type (db, w) = (Ok md, (db', w')) ->
  od_get (document_id md) db' = Some md /\
  status md = COMPLETED /\
  filename md = name /\
  file_size md = Z.of_nat (length content) /\
  (exists w0 documents w1 chunks w2 vectors w3 reply,
     uuid4 w = (Ok (document_id md), w0) /\
     load_from_bytes content name type w0 = (Ok documents, w1) /\
     split_documents documents w1 = (Ok chunks, w2) /\
     embed_documents (imap (tag_chunk (document_id md)) chunks) w2
       = (Ok vectors, w3) /\
     pinecone_upsert vectors w3 = (Ok reply, w') /\
     num_chunks md = Some (Z.of_nat (length chunks))) /\
  forall other, other <> document_id md -> od_get other db' = od_get other db.
Proof.
  unfold Documents.upload_and_process_document, world at 1.
  destruct (uuid4 w) as [[doc_id|e] w0]; [|discriminate].
  unfold try_except.
  destruct (process_document doc_id content name type (db, w0))
    as [[md0|e0] [db2 w2]] eqn:Hrun.
  - intros [= <- <- <-].
    destruct (process_document_registry _ _ _ _ _ _ _ _ _ Hrun)
      as ((md & Hget & Hid & Hname & Hsize & _ & Hok) & Hframe).
    destruct (Hok eq_refl) as [[= ->] Hstatus].
    destruct (process_document_completed _ _ _ _ _ _ _ _ _ Hrun)
      as (documents & w1 & chunks & w3 & vectors & w4 & reply & Hcalls).
    rewrite Hid. repeat split; try assumption.
    exists w0, documents, w1, chunks, w3, vectors, w4, reply.
    split; [reflexivity|exact Hcalls].
  - unfold mark_failed, bind, documents_db, raise. cbn [fst].
    destruct (od_get doc_id db2); discriminate.
Qed.

(** A completed upload is a completed [process_document] under the id
    drawn. *)
Lemma upload_runs_process_document content name type db (w : W) md db' w' :
  upload_and_process_document content name type (db, w) = (Ok md, (db', w')) ->
  exists w0,
    uuid4 w = (Ok (document_id md), w0) /\
    process_document (document_id md) content name type (db, w0)
    = (Ok md, (db', w')).
Proof.
  unfold Documents.upload_and_process_document, world at 1.
  destruct (uuid4 w) as [[doc_id|e] w0]; [|discriminate].
  unfold try_except.
  destruct (process_document doc_id content name type (db, w0))
    as [[md0|e0] [db2 w2]] eqn:Hrun.
  - intros [= <- <- <-].
    destruct (process_document_registry _ _ _ _ _ _ _ _ _ Hrun)
      as ((md & _ & Hid & _ & _ & _ & Hok) & _).
    destruct (Hok eq_refl) as [[= ->] _].
    exists w0. rewrite Hid. split; [reflexivity|exact Hrun].
  - unfold mark_failed, bind, documents_db, raise. cbn [fst].
    destruct (od_get doc_id db2); discriminate.
Qed.

(** X29: in a successful upload, the documents handed to
    [embed_documents] are the chunks the splitter returned, in the same
    number and order and with the same content, the [i]-th one carrying
    the document id under 'document_id' and '<document_id>_chunk_<i>'
    under 'id', its other metadata entries unchanged; so no two of the
    chunks embedded share an id. *)
Theorem uploaded_chunks_get_distinct_ids
    (content : list Byte.byte) (name type : string)
    (db db' : list (string * DocumentMetadata)) (w w' : W)
    (md : DocumentMetadata) :
  upload_and_process_document content name type (db, w) = (Ok md, (db', w')) ->
  exists w0 documents w1 chunks w2 tagged vectors w3,
    uuid4 w = (Ok (document_id md), w0) /\
    load_from_bytes content name type w0 = (Ok documents, w1) /\
    split_documents documents w1 = (Ok chunks, w2) /\
    embed_documents tagged w2 = (Ok vectors, w3) /\
    length tagged = length chunks /\
    (forall i chunk, chunks !! i = Some chunk ->
       exists sent,
         tagged !! i = Some sent /\
         page_content sent = page_content chunk /\
         metadata sent !! "document_id" = Some (VStr (document_id md)) /\
         metadata sent !! "id"
           = Some (VStr (document_id md +:+ "_chunk_" +:+ pretty i)) /\
         forall k, k <> "id" -> k <> "document_id" ->
           metadata sent !! k = metadata chunk !! k) /\
    (forall i j sent_i sent_j,
       tagged !! i = Some sent_i -> tagged !! j = Some sent_j ->
       metadata sent_i !! "id" = metadata sent_j !! "id" -> i = j).
Proof.
  intros Hrun.
  destruct (upload_runs_process_document _ _ _ _ _ _ _ _ Hrun)
    as (w0 & Hid & Hprocess).
  destruct (process_document_completed _ _ _ _ _ _ _ _ _ Hprocess)
    as (documents & w1 & chunks & w2 & vectors & w3 & reply
        & Hload & Hsplit & Hembed & _ & _).
  exists w0, documents, w1, chunks, w2,
    (imap (tag_chunk (document_id md)) chunks), vectors, w3.
  split; [exact Hid|]. split; [exact Hload|].
  split; [exact Hsplit|]. split; [exact Hembed|].
  split; [apply length_imap|]. split.
  - intros i chunk Hi. exists (tag_chunk (document_id md) i chunk).
    split; [by rewrite list_lookup_imap, Hi|].
    apply tag_chunk_fields.
  - intros i j sent_i sent_j Hi Hj.
    apply list_lookup_imap_Some in Hi as (chunk_i & _ & ->).
    apply list_lookup_imap_Some in Hj as (chunk_j & _ & ->).
    destruct (tag_chunk_fields (document_id md) i chunk_i) as (_ & _ & -> & _).
    destruct (tag_chunk_fields (document_id md) j chunk_j) as (_ & _ & -> & _).
    intros [= Heq]. exact (chunk_id_inj _ _ _ Heq).
Qed.

(** X27: [delete_document] on an id the registry does not hold
    answers False and touches neither the registry nor the index; on a
    registered id it asks the index to delete by the document id and,
    if that succeeds, answers True and removes the entry, the other
    entries staying as they were; if the index raises, the registry is
    left unchanged. *)
Theorem delete_document_cases
    (doc_id : string) (db : list (string * DocumentMetadata)) (w : W) :
  (od_get doc_id db = None ->
   delete_document doc_id (db, w) = (Ok false, (db, w))) /\
  (forall md w1,
     od_get doc_id db = Some md ->
     pinecone_delete {["document_id" := VStr doc_id]} w = (Ok tt, w1) ->
     delete_document doc_id (db, w) = (Ok true, (od_del doc_id db, w1)) /\
     od_get doc_id (od_del doc_id db) = None /\
     forall other, other <> doc_id ->
       od_get other (od_del doc_id db) = od_get other db) /\
  (forall md e w1,
     od_get doc_id db = Some md ->
     pinecone_delete {["document_id" := VStr doc_id]} w = (Raise e, w1) ->
     delete_document doc_id (db, w) = (Raise e, (db, w1))).
Proof.
  unfold Documents.delete_document, bind, documents_db, world, modify, ret.
  cbn [fst]. split; [|split].
  - intros ->. reflexivity.
  - intros md w1 -> ->. split; [reflexivity|].
    split; [apply od_get_del_eq|]. intros other Hne. by apply od_get_del_ne.
  - intros md e w1 -> ->. reflexivity.
Qed.


End DocumentService.

Lemma failed_upload_is_marked_failed_witness :
  exists db' w',
    upload_and_process_document Cases.next_uuid Cases.one_page_loader
      Cases.keep_documents Cases.embed_as_zero Cases.index_down
      [] "notes.txt" "txt" (Cases.one_document, ["doc-b"])
    = (Raise (Exn "PineconeException" "index unavailable"), (db', w')) /\
    (exists md, od_get "doc-b" db' = Some md /\ status md = FAILED) /\
    od_get "doc-a" db' = Some Cases.report.
Proof.
  eexists _, _. split; [vm_compute; reflexivity|].
  destruct (failed_upload_is_marked_failed Cases.next_uuid Cases.one_page_loader
              Cases.keep_documents Cases.embed_as_zero Cases.index_down
              [] "notes.txt" "txt" "doc-b" Cases.one_document _ ["doc-b"] [] _ _
              eq_refl ltac:(vm_compute; reflexivity))
    as ((md & Hget & Hstatus & _) & Hframe).
  split; [eauto|]. rewrite Hframe; [reflexivity|discriminate].
Defined.

Lemma completed_upload_is_registered_witness :
  exists md db' w',
    upload_and_process_document Cases.next_uuid Cases.one_page_loader
      Cases.keep_documents Cases.embed_as_zero Cases.index_up
      [] "notes.txt" "txt" (Cases.one_document, ["doc-b"])
    = (Ok md, (db', w')) /\
    od_get (document_id md) db' = Some md /\
    status md = COMPLETED.
Proof.
  eexists _, _, _. split; [vm_compute; reflexivity|].
  destruct (completed_upload_is_registered Cases.next_uuid Cases.one_page_loader
              Cases.keep_documents Cases.embed_as_zero Cases.index_up
              [] "notes.txt" "txt" Cases.one_document _ ["doc-b"] _ _
              ltac:(vm_compute; reflexivity))
    as (Hget & Hstatus & _).
  split; assumption.
Defined.

Lemma uploaded_chunks_get_distinct_ids_witness :
  exists tagged vectors w2 w3,
    Cases.embed_as_zero tagged w2 = (Ok vectors, w3) /\
    length tagged = 2%nat /\
    (exists sent, tagged !! 0%nat = Some sent /\
       metadata sent !! "id" = Some (VStr "doc-b_chunk_0")) /\
    (exists sent, tagged !! 1%nat = Some sent /\
       metadata sent !! "id" = Some (VStr "doc-b_chunk_1")).
Proof.
  destruct (uploaded_chunks_get_distinct_ids Cases.next_uuid
              Cases.one_page_loader Cases.split_in_two Cases.embed_as_zero
              Cases.index_up [] "notes.txt" "txt" Cases.one_document _
              ["doc-b"] _ _ ltac:(vm_compute; reflexivity))
    as (w0 & documents & w1 & chunks & w2 & tagged & vectors & w3
        & _ & Hload & Hsplit & Hembed & Hlen & Hsent & _).
  injection Hload as <- <-. injection Hsplit as <- <-.
  exists tagged, vectors, w0, w3. split; [exact Hembed|].
  split; [exact Hlen|]. split.
  - destruct (Hsent 0%nat _ eq_refl) as (sent & Hget & _ & _ & Hid & _). eauto.
  - destruct (Hsent 1%nat _ eq_refl) as (sent & Hget & _ & _ & Hid & _). eauto.
Defined.

Lemma delete_document_cases_witness :
  delete_document Cases.delete_ok "doc-z" (Cases.one_document, [])
    = (Ok false, (Cases.one_document, [])) /\
  delete_document Cases.delete_ok "doc-a" (Cases.one_document, [])
    = (Ok true, (od_del "doc-a" Cases.one_document, [])).
Proof.
  split.
  - apply (proj1 (delete_document_cases Cases.delete_ok "doc-z"
                    Cases.one_document [])).
    reflexivity.
  - apply (proj1 (proj2 (delete_document_cases Cases.delete_ok "doc-a"
                           Cases.one_document [])) Cases.report []);
      reflexivity.
Defined.


End DocumentsProps.

(** ** Summarization jobs *)

Module JobsProps.
Import Jobs.

Section SummarizationService.

Context {W : Type}.
Variable uuid4 : M W string.
Variable get_document : string -> M W (option Documents.DocumentMetadata).

Local Abbreviation batch_summarize := (batch_summarize uuid4).
Local Abbreviation get_job_status := (get_job_status (W:=W)).
Local Abbreviation summarize_document := (summarize_document get_document).

(** X30: a job created by [batch_summarize] can be read back under the
    id returned: it is pending, lists the document ids given, counts
    them in 'total', and has nothing completed; the other jobs are as
    they were, and an id that names no job makes [get_job_status] raise
    ValueError. *)
Theorem created_job_is_read_back
    (document_ids : list string) (length job_id : string)
    (jobs : gmap string Job) (w w1 : W) :
  uuid4 w = (Ok job_id, w1) ->
  exists jobs',
    batch_summarize document_ids length (jobs, w) = (Ok job_id, (jobs', w1)) /\
    get_job_status job_id (jobs', w1)
    = (Ok (mkJob "pending" document_ids length
             (Z.of_nat (List.length document_ids)) 0 []), (jobs', w1)) /\
    (forall other, other <> job_id -> jobs' !! other = jobs !! other) /\
    (forall other, jobs' !! other = None ->
       get_job_status other (jobs', w1)
       = (Raise (ValueError ("Job " +:+ other +:+ " not found")), (jobs', w1))).
Proof.
  intros Hid. eexists. split; [|split; [|split]].
  - unfold Jobs.batch_summarize, bind, world, modify, ret. rewrite Hid. reflexivity.
  - unfold Jobs.get_job_status. rewrite lookup_insert_eq. reflexivity.
  - intros other Hne. by rewrite lookup_insert_ne.
  - intros other Hnone. unfold Jobs.get_job_status. rewrite Hnone. reflexivity.
Qed.

End SummarizationService.

Lemma created_job_is_read_back_witness :
  exists jobs',
    batch_summarize Cases.next_uuid ["doc-a"; "doc-b"] "brief" (∅, ["job-1"])
    = (Ok "job-1", (jobs', [])) /\
    get_job_status "job-1" (jobs', ([] : list string))
    = (Ok (mkJob "pending" ["doc-a"; "doc-b"] "brief" 2 0 []), (jobs', [])).
Proof.
  destruct (created_job_is_read_back Cases.next_uuid ["doc-a"; "doc-b"] "brief"
              "job-1" ∅ ["job-1"] [] eq_refl) as (jobs' & Hrun & Hget & _).
  exists jobs'. split; assumption.
Defined.

End JobsProps.
